(** * Benford's-law analysis: a shallow embedding of [benford_analysis.py]

    The script has two functions.  [get_first_digit] maps one spreadsheet
    cell to its leading decimal digit (or to [None]); [main] loads a sheet,
    picks a column, counts the leading digits, compares the observed
    frequencies with Benford's and writes a report and a chart.

    Numbers.  A Python [int] is a [Z].  A finite Python [float] is an IEEE
    binary64 number; it is carried as the exact rational it denotes, and
    every float operation is the exact operation followed by [b64], the
    rounding to the nearest binary64 (ties to even).  Python renders a
    float with [dtoa], which rounds the exact binary value correctly (ties
    to even) at the requested number of decimals: [format_f].  The
    logarithm [math.log10] is the C library's: it is a parameter of [main],
    and what is proved of Benford's frequencies is proved from a bound on
    its error.

    Exceptions.  The body of [get_first_digit] runs in an error monad and
    its [try ... except Exception] turns every exception into [None].
    [Dynamic.get_first_digit] is the same function on an object of any
    class, given by what its special methods return or raise; there an
    exception that does not derive from [Exception] passes the handler.
    [main] runs in a monad over the world that can also leave early: by a
    [return], or by an exception that nothing catches.

    The world.  The path [output] is absent, a directory or a regular file;
    creating a directory at an absent path and writing a file below a
    directory succeed (there are no permissions).  What reading the input
    gives (the sheet, or the text of an exception) is part of the world.
    The console and the calls that touch the file system are recorded in
    order in a trace.  The report is kept as its header fields and rows,
    the chart as its two series of values. *)

From Stdlib Require Import ZArith QArith Qabs Qround Qpower Reals Qreals.
From Stdlib Require Import Psatz Lia.
From Stdlib Require Import List String Ascii Bool.
Import ListNotations.

Local Open Scope Z_scope.

(** ** Exceptions *)

Module Exc.

Inductive exn : Type :=
| TypeError
| ValueError
| OverflowError
| KeyError
| OSError.

Inductive result (A : Type) : Type :=
| Ok (a : A)
| Raise (e : exn).

Arguments Ok {A} a.
Arguments Raise {A} e.

Definition bind {A B : Type} (c : result A) (k : A -> result B) : result B :=
  match c with
  | Ok a => k a
  | Raise e => Raise e
  end.

(** [try: c except Exception: return d] *)
Definition try_except {A : Type} (c : result A) (d : A) : A :=
  match c with
  | Ok a => a
  | Raise _ => d
  end.

End Exc.

Import Exc.

Declare Scope exc_scope.
Delimit Scope exc_scope with exc.
Notation "x <- c ;; k" := (Exc.bind c (fun x => k))
  (at level 61, c at next level, right associativity) : exc_scope.

(** ** Binary64 arithmetic on exact rationals *)

Module Float.

Local Open Scope Q_scope.

(** Nearest integer, ties to the even one. *)
Definition round_half_even (x : Q) : Z :=
  let f := Qfloor x in
  match Qcompare (x - inject_Z f) (1 # 2) with
  | Lt => f
  | Gt => (f + 1)%Z
  | Eq => if Z.even f then f else (f + 1)%Z
  end.

(** [floor (log2 x)] for [0 < x]. *)
Definition ilog2 (x : Q) : Z :=
  let l := (Z.log2 (Qnum x) - Z.log2 (Zpos (Qden x)))%Z in
  if Qle_bool (2 ^ l) x then l else (l - 1)%Z.

(** Round to the nearest binary64: 53 significant bits, exponent of the
    last place at least -1074 (gradual underflow), ties to even.  The
    overflow to an infinity is left to the callers that can reach it. *)
Definition b64 (x : Q) : Q :=
  if Qeq_bool x 0 then 0
  else
    let e := Z.max (ilog2 (Qabs x) - 52) (-1074) in
    Qred (inject_Z (round_half_even (x / 2 ^ e)) * 2 ^ e).

Definition is_b64 (x : Q) : bool :=
  Qeq_bool (b64 x) x && negb (Qle_bool (2 ^ 1024) (Qabs x)).

Definition fadd (x y : Q) : Q := b64 (x + y).
Definition fsub (x y : Q) : Q := b64 (x - y).
Definition fmul (x y : Q) : Q := b64 (x * y).
Definition fdiv (x y : Q) : Q := b64 (x / y).

(** [float(z)] for a Python int: correctly rounded, [OverflowError] when
    the rounded value does not fit. *)
Definition float_of_int (z : Z) : result Q :=
  let r := b64 (inject_Z z) in
  if Qle_bool (2 ^ 1024) (Qabs r) then Raise OverflowError else Ok r.

(** The float a decimal literal of the source denotes. *)
Definition literal (x : Q) : Q := b64 x.

End Float.

(** ** Strings *)

Module Str.

Local Open Scope string_scope.

Definition digit_char (d : Z) : ascii :=
  ascii_of_nat (48 + Z.to_nat d).

(** Decimal digits of [n >= 0], most significant first. *)
Fixpoint decimal_fuel (fuel : nat) (n : Z) : string :=
  match fuel with
  | O => ""
  | S fuel' =>
      if (n <? 10)%Z then String (digit_char n) ""
      else decimal_fuel fuel' (n / 10) ++ String (digit_char (n mod 10)) ""
  end.

Definition decimal (n : Z) : string :=
  decimal_fuel (S (Z.to_nat (Z.log2 n))) n.

(** The last [k] decimal digits of [n], zero filled. *)
Fixpoint zfill (k : nat) (n : Z) : string :=
  match k with
  | O => ""
  | S k' => String (digit_char ((n / 10 ^ Z.of_nat k') mod 10)) (zfill k' n)
  end.

(** ["{:.<prec>f}".format(x)] for a finite float [x]. *)
Definition format_f (prec : nat) (x : Q) : string :=
  let p := 10 ^ Z.of_nat prec in
  let n := Float.round_half_even (Qabs x * inject_Z p) in
  (if Qlt_le_dec x 0 then "-" else "")
    ++ decimal (n / p)
    ++ match prec with O => "" | _ => "." ++ zfill prec (n mod p) end.

(** [s.replace(c, '')] for a one-character [c]. *)
Fixpoint remove_char (c : ascii) (s : string) : string :=
  match s with
  | "" => ""
  | String a s' =>
      if Ascii.eqb a c then remove_char c s' else String a (remove_char c s')
  end.

(** [s.lstrip(c)] for a one-character [c]. *)
Fixpoint lstrip (c : ascii) (s : string) : string :=
  match s with
  | "" => ""
  | String a s' => if Ascii.eqb a c then lstrip c s' else s
  end.

(** [int(c)] for a one-character string. *)
Definition int_of_char (c : ascii) : result Z :=
  let n := nat_of_ascii c in
  if (48 <=? n)%nat && (n <=? 57)%nat then Ok (Z.of_nat n - 48)
  else Raise ValueError.

End Str.

Arguments Str.digit_char : simpl never.

(** ** Cell values *)

Inductive pyfloat : Type :=
| Fnan
| Finf (negative : bool)
| Ffin (q : Q).

(** What a cell of the loaded sheet can hold. *)
Inductive value : Type :=
| VNone                 (* None, NaT: a missing cell of an object column *)
| VFloat (f : pyfloat)
| VInt (z : Z)
| VBool (b : bool)
| VStr (s : string)
| VObject.              (* a datetime, a time: no __abs__ *)

(** A number, as [abs] returns it. *)
Inductive number : Type :=
| NInt (z : Z)
| NFloat (f : pyfloat).

(** [pd.isna(n)] on a scalar. *)
Definition pd_isna (n : value) : bool :=
  match n with
  | VNone => true
  | VFloat Fnan => true
  | _ => false
  end.

(** [abs(n)] *)
Definition py_abs (n : value) : result number :=
  match n with
  | VFloat Fnan => Ok (NFloat Fnan)
  | VFloat (Finf _) => Ok (NFloat (Finf false))
  | VFloat (Ffin q) => Ok (NFloat (Ffin (Qabs q)))
  | VInt z => Ok (NInt (Z.abs z))
  | VBool b => Ok (NInt (if b then 1 else 0))
  | VNone | VStr _ | VObject => Raise TypeError
  end.

(** [x == 0] *)
Definition eq_zero (x : number) : bool :=
  match x with
  | NInt z => z =? 0
  | NFloat (Ffin q) => Qeq_bool q 0
  | NFloat _ => false
  end.

Definition format_float (prec : nat) (f : pyfloat) : string :=
  match f with
  | Fnan => "nan"
  | Finf false => "inf"
  | Finf true => "-inf"
  | Ffin q => Str.format_f prec q
  end.

(** ["{:.15f}".format(x)]: an int is converted to a float first. *)
Definition format_15f (x : number) : result string :=
  match x with
  | NFloat f => Ok (format_float 15 f)
  | NInt z => (q <- Float.float_of_int z ;; Ok (Str.format_f 15 q))%exc
  end.

(** ** [get_first_digit] *)

Definition get_first_digit_body (n : value) : result (option Z) :=
  (if pd_isna n then Ok None
   else
     n_abs <- py_abs n ;;
     if eq_zero n_abs then Ok None
     else
       s <- format_15f n_abs ;;
       let s := Str.lstrip "0" (Str.remove_char "." s) in
       match s with
       | EmptyString => Ok None
       | String c _ => d <- Str.int_of_char c ;; Ok (Some d)
       end)%exc.

Definition get_first_digit (n : value) : option Z :=
  try_except (get_first_digit_body n) None.

Definition vfloat (x : Q) : value := VFloat (Ffin (Float.literal x)).

(** ** [get_first_digit] on an argument of any class

    Nothing in [get_first_digit] asks for a cell: Python runs it on an
    instance of any class, through the calls it makes on its argument.
    [pd.isna(n)] is tested for truth; [abs(n)] calls [__abs__] of the class
    of [n]; [n_abs == 0] calls [__eq__] and takes the truth value of what
    it returns; the format calls [__format__], which has to return a str.
    Each of the calls returns or raises, and of what is raised
    [except Exception] catches the classes that derive from [Exception]
    only.  A str is a sequence of code points, and [int] of a one-character
    str is the decimal value of the character in the Unicode database,
    which is CPython's table [to_decimal], or a [ValueError] when it has
    none. *)

Module Dynamic.

Inductive raised : Type :=
| Builtin (e : exn)         (* raised by the built-in operations: all derive from Exception *)
| Custom (name : string)    (* a class of the caller's that derives from Exception *)
| Exiting (name : string).  (* KeyboardInterrupt, SystemExit, GeneratorExit: BaseException only *)

Definition derives_from_Exception (r : raised) : bool :=
  match r with
  | Exiting _ => false
  | _ => true
  end.

Inductive returned (A : Type) : Type :=
| Return (a : A)
| Throw (r : raised).

Arguments Return {A} a.
Arguments Throw {A} r.

Definition bind {A B : Type} (c : returned A) (k : A -> returned B) : returned B :=
  match c with
  | Return a => k a
  | Throw r => Throw r
  end.

Definition lift {A : Type} (c : result A) : returned A :=
  match c with
  | Ok a => Return a
  | Raise e => Throw (Builtin e)
  end.

(** [try: c except Exception: return d] *)
Definition try_except {A : Type} (c : returned A) (d : A) : returned A :=
  match c with
  | Return a => Return a
  | Throw r => if derives_from_Exception r then Return d else Throw r
  end.

(** A str, as its code points. *)
Definition ustring : Type := list Z.

Definition code_point (a : ascii) : Z := Z.of_nat (nat_of_ascii a).

Definition code_points (s : string) : ustring :=
  map code_point (list_ascii_of_string s).

(** [s.replace(c, '')] for a one-character [c]. *)
Definition remove_char (c : Z) (s : ustring) : ustring :=
  filter (fun a => negb (a =? c)) s.

(** [s.lstrip(c)] for a one-character [c]. *)
Fixpoint lstrip (c : Z) (s : ustring) : ustring :=
  match s with
  | [] => []
  | a :: s' => if a =? c then lstrip c s' else s
  end.

(** What [abs(n)] returned, through the two calls made on it. *)
Record absolute : Type := {
  eq_zero_truth : returned bool;      (* the truth value of [n_abs == 0] *)
  dunder_format : returned ustring    (* ["{:.15f}".format(n_abs)] *)
}.

(** The argument, through the two calls made on it. *)
Record pyobject : Type := {
  isna_truth : returned bool;         (* the truth value of [pd.isna(n)] *)
  dunder_abs : returned absolute      (* [abs(n)] *)
}.

(** A number and a cell as such objects. *)
Definition of_number (x : number) : absolute :=
  {| eq_zero_truth := Return (eq_zero x);
     dunder_format := lift (Exc.bind (format_15f x) (fun s => Ok (code_points s))) |}.

Definition of_value (n : value) : pyobject :=
  {| isna_truth := Return (pd_isna n);
     dunder_abs := lift (Exc.bind (py_abs n) (fun x => Ok (of_number x))) |}.

Section Decimal.

Variable to_decimal : Z -> option Z.

(** [int(c)] for a one-character str. *)
Definition int_of_char (c : Z) : returned Z :=
  match to_decimal c with
  | Some d => Return d
  | None => Throw (Builtin ValueError)
  end.

Definition get_first_digit_body (n : pyobject) : returned (option Z) :=
  bind (isna_truth n) (fun na =>
  if na then Return None
  else
    bind (dunder_abs n) (fun n_abs =>
    bind (eq_zero_truth n_abs) (fun is_zero =>
    if is_zero then Return None
    else
      bind (dunder_format n_abs) (fun s =>
      let s := lstrip 48 (remove_char 46 s) in
      match s with
      | [] => Return None
      | c :: _ => bind (int_of_char c) (fun d => Return (Some d))
      end)))).

Definition get_first_digit (n : pyobject) : returned (option Z) :=
  try_except (get_first_digit_body n) None.

End Decimal.

End Dynamic.


(** ** Series: a pandas Series with integer labels and integer values *)

Module Series.

Definition t (V : Type) : Type := list (Z * V).

Definition index {V} (s : t V) : list Z := map fst s.

(** [i in s.index] *)
Definition mem {V} (i : Z) (s : t V) : bool :=
  existsb (Z.eqb i) (index s).

(** [s[i]]: [KeyError] when the label is absent. *)
Fixpoint get {V} (s : t V) (i : Z) : result V :=
  match s with
  | [] => Raise KeyError
  | (k, v) :: s' => if k =? i then Ok v else get s' i
  end.

(** [s[i] = v]: overwrite the label, or append it when it is new. *)
Fixpoint set {V} (i : Z) (v : V) (s : t V) : t V :=
  match s with
  | [] => [(i, v)]
  | (k, w) :: s' => if k =? i then (k, v) :: s' else (k, w) :: set i v s'
  end.

Fixpoint insert_sorted {V} (p : Z * V) (s : t V) : t V :=
  match s with
  | [] => [p]
  | q :: s' => if fst p <=? fst q then p :: q :: s' else q :: insert_sorted p s'
  end.

(** [s.sort_index()] *)
Definition sort_index {V} (s : t V) : t V :=
  fold_right insert_sorted [] s.

Definition bump (k : Z) (s : t Z) : t Z :=
  match get s k with
  | Ok c => set k (c + 1) s
  | Raise _ => set k 1 s
  end.

(** [values.value_counts()]: one entry per distinct value, with its
    number of occurrences.  pandas orders the entries by count; the
    caller sorts by label at once, so they are left in order of first
    appearance. *)
Definition value_counts (values : list Z) : t Z :=
  fold_left (fun s k => bump k s) values [].

End Series.

(** ** The run: sheet, file system, console *)

Definition dataframe : Type := list (string * list value).

(** [df.columns] *)
Definition df_columns (df : dataframe) : list string := map fst df.

(** [name in df.columns] *)
Definition has_column (name : string) (df : dataframe) : bool :=
  existsb (String.eqb name) (df_columns df).

(** [df[name]] *)
Fixpoint df_get (df : dataframe) (name : string) : result (list value) :=
  match df with
  | [] => Raise KeyError
  | (k, col) :: df' => if String.eqb k name then Ok col else df_get df' name
  end.

(** One row of the report table. *)
Record row : Type := {
  row_digit : Z;
  row_count : Z;
  row_act_p : Q;
  row_ben_p : Q;
  row_diff : Q
}.

(** The text report: its header fields and the nine table rows.  The
    percentages are written with two decimals. *)
Record report : Type := {
  analyzed_file : string;
  column_analyzed : string;
  total_valid_entries : Z;
  table : list row
}.

(** The two series of bars of the chart, over the digits. *)
Record chart : Type := {
  chart_digits : list Z;
  actual_values : list Q;
  benford_values : list Q
}.

Inductive artifact : Type :=
| ReportFile (r : report)
| ChartFile (c : chart).

(** One constructor per [print] of [main]. *)
Inductive line : Type :=
| Starting
| CreatedDirectory (dir : string)
| DataLoaded
| ErrorLoading (e : string)
| AmountNotFound
| NeitherColumn
| AvailableColumns (names : list string)
| ProcessingColumn (name : string)
| NoValidData
| TotalValidEntries (n : Z)
| ReportSaved (path : string)
| ChartSaved (path : string).

Inductive event : Type :=
| Print (l : line)
| Makedirs (path : string)
| ReadExcel (path : string)
| WriteFile (path : string) (a : artifact).

(** What a path names. *)
Inductive node : Type :=
| Absent
| Directory
| RegularFile.

Record world : Type := {
  output_node : node;                      (* the path [output] *)
  files : list (string * artifact);        (* files below [output] *)
  sheet : string + dataframe;              (* what reading the input gives:
                                              the exception's text, or the sheet *)
  trace : list event                       (* effects so far, oldest first *)
}.

(** How a run ends.  [main] returns early after printing a message in the
    three error cases; [Uncaught] is an exception that escapes [main]. *)
Inductive outcome : Type :=
| Done
| LoadError
| ColumnNotFoundError
| NoDataError
| Uncaught (e : exn).

Module IO.

Definition M (A : Type) : Type := world -> (A + outcome) * world.

Definition ret {A} (a : A) : M A := fun w => (inl a, w).

Definition bind {A B} (c : M A) (k : A -> M B) : M B :=
  fun w =>
    match c w with
    | (inl a, w') => k a w'
    | (inr o, w') => (inr o, w')
    end.

(** [return] from [main], or an escaping exception. *)
Definition exit {A} (o : outcome) : M A := fun w => (inr o, w).

Definition lift {A} (r : result A) : M A :=
  match r with
  | Ok a => ret a
  | Raise e => exit (Uncaught e)
  end.

Definition log (e : event) : M unit :=
  fun w => (inl tt, {| output_node := output_node w; files := files w;
                      sheet := sheet w; trace := trace w ++ [e] |}).

Definition print (l : line) : M unit := log (Print l).

(** [os.path.exists(path)], for the output directory. *)
Definition os_path_exists : M bool :=
  fun w => (inl (match output_node w with Absent => false | _ => true end), w).

(** [os.makedirs(path)], for the output directory. *)
Definition os_makedirs (path : string) : M unit :=
  fun w =>
    match output_node w with
    | Absent => (inl tt, {| output_node := Directory; files := files w;
                           sheet := sheet w; trace := trace w ++ [Makedirs path] |})
    | _ => (inr (Uncaught OSError), w)
    end.

(** [pd.read_excel(path)] inside its [try]. *)
Definition read_excel (path : string) : M (string + dataframe) :=
  fun w => (inl (sheet w), {| output_node := output_node w; files := files w;
                             sheet := sheet w; trace := trace w ++ [ReadExcel path] |}).

Fixpoint put_file (path : string) (a : artifact) (fs : list (string * artifact))
  : list (string * artifact) :=
  match fs with
  | [] => [(path, a)]
  | (p, b) :: fs' =>
      if String.eqb p path then (p, a) :: fs' else (p, b) :: put_file path a fs'
  end.

(** Create or replace a file below the output directory. *)
Definition write_file (path : string) (a : artifact) : M unit :=
  fun w =>
    match output_node w with
    | Directory => (inl tt, {| output_node := Directory;
                              files := put_file path a (files w);
                              sheet := sheet w;
                              trace := trace w ++ [WriteFile path a] |})
    | _ => (inr (Uncaught OSError), w)
    end.

End IO.

Declare Scope io_scope.
Delimit Scope io_scope with io.
Notation "x <- c ;; k" := (IO.bind c (fun x => k))
  (at level 61, c at next level, right associativity) : io_scope.
Notation "c ;; k" := (IO.bind c (fun _ => k))
  (at level 61, right associativity) : io_scope.

(** [range(a, b)] *)
Definition range (a b : Z) : list Z :=
  map (fun i => a + Z.of_nat i) (seq 0 (Z.to_nat (b - a))).

Fixpoint traverse {A B} (f : A -> result B) (l : list A) : result (list B) :=
  match l with
  | [] => Ok []
  | a :: l' => (b <- f a ;; bs <- traverse f l' ;; Ok (b :: bs))%exc
  end.

Definition output_dir : string := "output".
Definition file_path : string := "je_samples.xlsx".
Definition report_path : string := "output/benford_analysis_report.txt".
Definition chart_path : string := "output/benford_analysis_chart.png".

(** [column.apply(get_first_digit).dropna()] *)
Definition first_digits_of (column : list value) : list Z :=
  flat_map (fun v => match get_first_digit v with Some d => [d] | None => [] end) column.

(** Lines 75-82: count, add the missing digits with count 0, sort. *)
Definition digit_counts_of (first_digits : list Z) : Series.t Z :=
  let digit_counts := Series.sort_index (Series.value_counts first_digits) in
  let digit_counts :=
    fold_left (fun dc i => if Series.mem i dc then dc else Series.set i 0 dc)
              (range 1 10) digit_counts in
  Series.sort_index digit_counts.

(** [digit_counts / total_count]: both sides become floats. *)
Definition actual_freq_of (digit_counts : Series.t Z) (total_count : Z) : Series.t Q :=
  map (fun p => (fst p, Float.fdiv (Float.b64 (inject_Z (snd p)))
                                   (Float.b64 (inject_Z total_count))))
      digit_counts.

Section Main.

(** [math.log10] of the C library, on binary64 values. *)
Variable math_log10 : Q -> Q.

(** [{d: math.log10(1 + 1/d) for d in range(1, 10)}] *)
Definition benford_freq : Series.t Q :=
  map (fun d => (d, math_log10 (Float.fadd 1 (Float.fdiv 1 (inject_Z d)))))
      (range 1 10).

Definition report_row (digit_counts : Series.t Z) (actual_freq : Series.t Q) (d : Z)
  : result row :=
  (count <- Series.get digit_counts d ;;
   a <- Series.get actual_freq d ;;
   b <- Series.get benford_freq d ;;
   let act_p := Float.fmul a 100 in
   let ben_p := Float.fmul b 100 in
   let diff := Float.fsub act_p ben_p in
   Ok {| row_digit := d; row_count := count; row_act_p := act_p;
         row_ben_p := ben_p; row_diff := diff |})%exc.

Definition percent (s : Series.t Q) (d : Z) : result Q :=
  (x <- Series.get s d ;; Ok (Float.fmul x 100))%exc.

Definition main : IO.M unit :=
  (IO.print Starting ;;
   (* Create output directory *)
   present <- IO.os_path_exists ;;
   (if negb present
    then IO.os_makedirs output_dir ;; IO.print (CreatedDirectory output_dir)
    else IO.ret tt) ;;
   (* Load data *)
   loaded <- IO.read_excel file_path ;;
   match loaded with
   | inl e => IO.print (ErrorLoading e) ;; IO.exit LoadError
   | inr df =>
       IO.print DataLoaded ;;
       (* Check for Amount column *)
       process_column <-
         (if has_column "Amount" df then IO.ret "Amount"%string
          else if has_column "AbsoluteAmount" df
               then IO.print AmountNotFound ;; IO.ret "AbsoluteAmount"%string
               else IO.print NeitherColumn ;;
                    IO.print (AvailableColumns (df_columns df)) ;;
                    IO.exit ColumnNotFoundError) ;;
       (* Extract first digits *)
       IO.print (ProcessingColumn process_column) ;;
       column <- IO.lift (df_get df process_column) ;;
       let first_digits := first_digits_of column in
       match first_digits with
       | [] => IO.print NoValidData ;; IO.exit NoDataError
       | _ :: _ =>
           let total_count := Z.of_nat (List.length first_digits) in
           IO.print (TotalValidEntries total_count) ;;
           (* Calculate frequencies *)
           let digit_counts := digit_counts_of first_digits in
           let actual_freq := actual_freq_of digit_counts total_count in
           (* Generate Report *)
           rows <- IO.lift (traverse (report_row digit_counts actual_freq)
                                     (range 1 10)) ;;
           IO.write_file report_path
             (ReportFile {| analyzed_file := file_path;
                            column_analyzed := process_column;
                            total_valid_entries := total_count;
                            table := rows |}) ;;
           IO.print (ReportSaved report_path) ;;
           (* Generate Chart *)
           let digits := range 1 10 in
           actual_values <- IO.lift (traverse (percent actual_freq) digits) ;;
           benford_values <- IO.lift (traverse (percent benford_freq) digits) ;;
           IO.write_file chart_path
             (ChartFile {| chart_digits := digits;
                           actual_values := actual_values;
                           benford_values := benford_values |}) ;;
           IO.print (ChartSaved chart_path)
       end
   end)%io.

End Main.


(** * The vocabulary of the properties *)

(** [d] is the most significant decimal digit of [n]. *)
Definition leading_digit (n d : Z) : Prop :=
  1 <= d <= 9 /\ exists j : Z, 0 <= j /\ d * 10 ^ j <= n < (d + 1) * 10 ^ j.

(** [s] starts with the character of digit [d]. *)
Definition starts_with (d : Z) (s : string) : Prop :=
  exists rest, s = String (Str.digit_char d) rest.

Fixpoint all_digits (s : string) : Prop :=
  match s with
  | EmptyString => True
  | String c s' => (exists d, 0 <= d <= 9 /\ c = Str.digit_char d) /\ all_digits s'
  end.

Ltac digit_cases d :=
  assert (d = 0 \/ d = 1 \/ d = 2 \/ d = 3 \/ d = 4 \/ d = 5 \/ d = 6 \/ d = 7
          \/ d = 8 \/ d = 9) as digit_cases_H by lia;
  repeat (destruct digit_cases_H as [digit_cases_H | digit_cases_H]);
  subst d.

(** [|q|] in units of 1e-15, to the nearest: the integer whose digits
    ["{:.15f}"] prints. *)
Definition scaled (q : Q) : Z :=
  Float.round_half_even (Qabs q * inject_Z (10 ^ 15)).

(** The end of [get_first_digit], from the rendered string on. *)
Definition first_char_digit (s : string) : result (option Z) :=
  let s := Str.lstrip "0" (Str.remove_char "." s) in
  match s with
  | EmptyString => Ok None
  | String c _ => (d <- Str.int_of_char c ;; Ok (Some d))%exc
  end.

(** The finite non-zero numbers whose rendering at 15 decimals is not all
    zeros: a float above 5e-16 in magnitude, an int that [float] accepts. *)
Definition renders_nonzero (n : value) : Prop :=
  match n with
  | VFloat (Ffin q) => (5 # 10 ^ 16 < Qabs q)%Q
  | VInt z => z <> 0 /\ exists q, Float.float_of_int (Z.abs z) = Ok q
  | _ => False
  end.

(** The finite non-zero numbers. *)
Definition finite_nonzero (n : value) : Prop :=
  match n with
  | VFloat (Ffin q) => Float.is_b64 q = true /\ ~ (q == 0)%Q
  | VInt z => z <> 0
  | _ => False
  end.

(** The number of occurrences of [j] in [l]. *)
Definition count (l : list Z) (j : Z) : Z :=
  Z.of_nat (count_occ Z.eq_dec l j).

Definition zsum (l : list Z) : Z := fold_right Z.add 0 l.

(** The exact sum of a list of floats. *)
Definition qsum (l : list Q) : Q := fold_right Qplus 0%Q l.

(** [sum(l)]: the floats added from left to right. *)
Definition fsum (l : list Q) : Q := fold_left Float.fadd l 0%Q.

(** The file at a path below the output directory. *)
Fixpoint file_at (path : string) (fs : list (string * artifact)) : option artifact :=
  match fs with
  | [] => None
  | (p, a) :: fs' => if String.eqb p path then Some a else file_at path fs'
  end.

(** The observed frequency of a digit, as [main] computes it. *)
Definition observed (l : list Z) (d : Z) : Q :=
  Float.fdiv (Float.b64 (inject_Z (count l d)))
             (Float.b64 (inject_Z (Z.of_nat (List.length l)))).

(** The world with more events. *)
Definition emit (es : list event) (w : world) : world :=
  {| output_node := output_node w; files := files w; sheet := sheet w;
     trace := trace w ++ es |}.

(** The events up to the reading of the sheet. *)
Definition prologue (w : world) : list event :=
  Print Starting
    :: match output_node w with
       | Absent => [Makedirs output_dir; Print (CreatedDirectory output_dir)]
       | _ => []
       end
    ++ [ReadExcel file_path].

(** The world once the sheet has been read. *)
Definition loaded (w : world) : world :=
  {| output_node := match output_node w with Absent => Directory | n => n end;
     files := files w; sheet := sheet w;
     trace := trace w ++ prologue w |}.

(** The column [main] processes and whether it is the fallback. *)
Definition process_column_of (df : dataframe) : option (string * bool) :=
  if has_column "Amount" df then Some ("Amount"%string, false)
  else if has_column "AbsoluteAmount" df
       then Some ("AbsoluteAmount"%string, true)
       else None.

Definition selection_events (fallback : bool) (name : string) : list event :=
  Print DataLoaded
    :: (if fallback then [Print AmountNotFound] else [])
    ++ [Print (ProcessingColumn name)].

Section Expected.

Variable math_log10 : Q -> Q.

(** Benford's frequency of a digit, as [main] computes it. *)
Definition expected (d : Z) : Q :=
  math_log10 (Float.fadd 1 (Float.fdiv 1 (inject_Z d))).

Definition row_of (l : list Z) (d : Z) : row :=
  {| row_digit := d;
     row_count := count l d;
     row_act_p := Float.fmul (observed l d) 100;
     row_ben_p := Float.fmul (expected d) 100;
     row_diff := Float.fsub (Float.fmul (observed l d) 100)
                            (Float.fmul (expected d) 100) |}.

Definition report_of (name : string) (l : list Z) : report :=
  {| analyzed_file := file_path;
     column_analyzed := name;
     total_valid_entries := Z.of_nat (List.length l);
     table := map (row_of l) (range 1 10) |}.

Definition chart_of (l : list Z) : chart :=
  {| chart_digits := range 1 10;
     actual_values := map (fun d => Float.fmul (observed l d) 100) (range 1 10);
     benford_values := map (fun d => Float.fmul (expected d) 100) (range 1 10) |}.

(** The events of the analysis of a column with valid digits [l]. *)
Definition analysis_events (name : string) (l : list Z) : list event :=
  [Print (TotalValidEntries (Z.of_nat (List.length l)));
   WriteFile report_path (ReportFile (report_of name l));
   Print (ReportSaved report_path);
   WriteFile chart_path (ChartFile (chart_of l));
   Print (ChartSaved chart_path)].

End Expected.

(** The sheet of the scenario of the specification. *)
Definition scenario_column : list value :=
  [VInt 123; vfloat (456 # 10); VInt 0; vfloat (-89 # 10000); VStr "bad"; VNone].

Definition scenario : dataframe := [("Amount"%string, scenario_column)].

(** A first run in an empty directory. *)
Definition fresh (s : string + dataframe) : world :=
  {| output_node := Absent; files := []; sheet := s; trace := [] |}.

(** The decimal logarithm of a real. *)
Definition log10 (y : R) : R := (ln y / ln 10)%R.

Definition rsum (l : list R) : R := fold_right Rplus 0%R l.

(** A C library for the examples: the logarithm rounded up at 12
    decimals. *)
Definition libm_log10 (x : Q) : Q :=
  up (log10 (Q2R x) * 10 ^ 12)%R # 10 ^ 12.

(** The float [1 + 1/d] whose logarithm is taken. *)
Definition benford_arg (d : Z) : Q :=
  Float.fadd 1 (Float.fdiv 1 (inject_Z d)).

Ltac benford_arg_case d :=
  let v := eval vm_compute in (benford_arg d) in
  change (benford_arg d) with v;
  repeat split;
  [ vm_compute; discriminate
  | vm_compute; discriminate
  | unfold Q2R; cbn [Qnum Qden]; lra
  | unfold Q2R; cbn [Qnum Qden]; apply Rabs_le; split; lra ].

(** The cell has a leading digit; the cell has the leading digit [d]. *)
Definition has_digit (v : value) : bool :=
  match get_first_digit v with Some _ => true | None => false end.

Definition digit_is (d : Z) (v : value) : bool :=
  match get_first_digit v with Some d' => d' =? d | None => false end.

(** No event of the list writes a file. *)
Definition no_writes (es : list event) : Prop :=
  forall p a, ~ In (WriteFile p a) es.


(** What is used of CPython's table of decimal values: among the code
    points below 256 only the ASCII digits have one, and a decimal value
    is a digit. *)
Definition decimal_table (to_decimal : Z -> option Z) : Prop :=
  (forall c, c < 256 ->
     to_decimal c = if (48 <=? c) && (c <=? 57) then Some (c - 48) else None) /\
  (forall c d, to_decimal c = Some d -> 0 <= d <= 9).

(** A table for the examples: the ASCII digits and the fullwidth digits,
    [U+FF10] to [U+FF19]. *)
Definition sample_decimal (c : Z) : option Z :=
  if (48 <=? c) && (c <=? 57) then Some (c - 48)
  else if (65296 <=? c) && (c <=? 65305) then Some (c - 65296)
  else None.

(** An instance of a class whose [__abs__] returns an object that is not
    equal to 0 and whose [__format__] returns the one-character str
    [U+FF10], the fullwidth digit zero. *)
Definition fullwidth_zero : Dynamic.pyobject :=
  {| Dynamic.isna_truth := Dynamic.Return false;
     Dynamic.dunder_abs :=
       Dynamic.Return
         {| Dynamic.eq_zero_truth := Dynamic.Return false;
            Dynamic.dunder_format := Dynamic.Return [65296] |} |}.

(** An instance of a class whose [__abs__] raises [KeyboardInterrupt]. *)
Definition interrupted : Dynamic.pyobject :=
  {| Dynamic.isna_truth := Dynamic.Return false;
     Dynamic.dunder_abs := Dynamic.Throw (Dynamic.Exiting "KeyboardInterrupt") |}.

(** One of the calls that [get_first_digit] makes on [n] raises [r]. *)
Definition raises (n : Dynamic.pyobject) (r : Dynamic.raised) : Prop :=
  Dynamic.isna_truth n = Dynamic.Throw r \/
  Dynamic.dunder_abs n = Dynamic.Throw r \/
  exists n_abs, Dynamic.dunder_abs n = Dynamic.Return n_abs /\
    (Dynamic.eq_zero_truth n_abs = Dynamic.Throw r \/
     Dynamic.dunder_format n_abs = Dynamic.Throw r).

(** The text that [n] is formatted to, once the dot and the leading zeros
    are removed, starts with the code point [c]. *)
Definition stripped_head (n : Dynamic.pyobject) (c : Z) : Prop :=
  exists n_abs s rest,
    Dynamic.dunder_abs n = Dynamic.Return n_abs /\
    Dynamic.dunder_format n_abs = Dynamic.Return s /\
    Dynamic.lstrip 48 (Dynamic.remove_char 46 s) = c :: rest.

(** * Properties *)

(** ** Decimal rendering *)

Lemma int_of_digit_char (d : Z) :
  0 <= d <= 9 -> Str.int_of_char (Str.digit_char d) = Ok d.
Proof. intros H. digit_cases d; reflexivity. Qed.

Lemma digit_char_is_zero (d : Z) :
  0 <= d <= 9 -> Ascii.eqb (Str.digit_char d) "0" = (d =? 0).
Proof. intros H. digit_cases d; reflexivity. Qed.

Lemma digit_char_not_dot (d : Z) :
  0 <= d <= 9 -> Ascii.eqb (Str.digit_char d) "." = false.
Proof. intros H. digit_cases d; reflexivity. Qed.

Lemma all_digits_app (s t : string) :
  all_digits s -> all_digits t -> all_digits (s ++ t).
Proof.
  induction s as [| c s IH]; simpl; [tauto |].
  intros [Hc Hs] Ht. split; auto.
Qed.

Lemma remove_dot_digits (s : string) :
  all_digits s -> Str.remove_char "." s = s.
Proof.
  induction s as [| c s IH]; simpl; [reflexivity |].
  intros [(d & Hd & ->) Hs].
  rewrite digit_char_not_dot by assumption. now rewrite IH.
Qed.

Lemma remove_char_app (c : ascii) (s t : string) :
  Str.remove_char c (s ++ t) = (Str.remove_char c s ++ Str.remove_char c t)%string.
Proof.
  induction s as [| a s IH]; simpl; [reflexivity |].
  destruct (Ascii.eqb a c); simpl; now rewrite IH.
Qed.

Lemma starts_with_app (d : Z) (s t : string) :
  starts_with d s -> starts_with d (s ++ t).
Proof. intros [rest ->]. now exists (rest ++ t)%string. Qed.

Lemma lstrip_starts_with (d : Z) (s : string) :
  1 <= d <= 9 -> starts_with d s -> Str.lstrip "0" s = s.
Proof.
  intros Hd [rest ->]. cbn [Str.lstrip].
  rewrite digit_char_is_zero by lia.
  destruct (Z.eqb_spec d 0); [lia | reflexivity].
Qed.

(** The decimal string of a positive integer has digits only and starts
    with its most significant digit; enough fuel is any [fuel] with
    [n < 2 ^ fuel]. *)
Lemma decimal_fuel_spec (fuel : nat) :
  forall n, 0 <= n < 2 ^ Z.of_nat (S fuel) ->
    all_digits (Str.decimal_fuel (S fuel) n) /\
    (n = 0 -> Str.decimal_fuel (S fuel) n = "0"%string) /\
    (0 < n -> exists d, leading_digit n d /\
                        starts_with d (Str.decimal_fuel (S fuel) n)).
Proof.
  assert (Hsmall : forall f n, 0 <= n < 10 ->
            all_digits (String (Str.digit_char n) "") /\
            (n = 0 -> String (Str.digit_char n) "" = "0"%string) /\
            (0 < n -> exists d, leading_digit n d /\
                                starts_with d (String (Str.digit_char n) f))).
  { intros f n Hn. split; [| split].
    - split; [| exact I]. exists n. split; [lia | reflexivity].
    - intros ->. reflexivity.
    - intros Hpos. exists n. split.
      + split; [lia |]. exists 0. split; [lia |]. change (10 ^ 0) with 1. lia.
      + now exists f. }
  induction fuel as [| fuel IH]; intros n Hn.
  - cbn [Str.decimal_fuel]. change (2 ^ Z.of_nat 1) with 2 in Hn.
    destruct (Z.ltb_spec n 10) as [Hlt | Hge]; [| lia].
    apply (Hsmall ""%string). lia.
  - cbn [Str.decimal_fuel].
    destruct (Z.ltb_spec n 10) as [Hlt | Hge].
    + apply (Hsmall ""%string). lia.
    + assert (Hfuel : 0 <= n / 10 < 2 ^ Z.of_nat (S fuel)).
      { rewrite (Nat2Z.inj_succ (S fuel)), Z.pow_succ_r in Hn by lia.
        split; [apply Z.div_pos; lia |].
        apply Z.div_lt_upper_bound; lia. }
      destruct (IH _ Hfuel) as (Hall & _ & Hhead).
      fold (Str.decimal_fuel (S fuel) (n / 10)).
      split; [| split].
      * apply all_digits_app; [assumption |].
        split; [| exact I]. exists (n mod 10).
        pose proof (Z.mod_pos_bound n 10 ltac:(lia)).
        split; [lia | reflexivity].
      * lia.
      * intros _.
        destruct Hhead as (d & Hlead & Hs).
        { apply Z.div_str_pos; lia. }
        destruct Hlead as (Hd & j & Hj & Hlo & Hhi).
        exists d. split; [| now apply starts_with_app].
        split; [assumption |]. exists (j + 1). split; [lia |].
        rewrite Z.pow_add_r by lia. change (10 ^ 1) with 10.
        pose proof (Z.div_mod n 10 ltac:(lia)) as Hdm.
        pose proof (Z.mod_pos_bound n 10 ltac:(lia)) as Hmod.
        nia.
Qed.

Lemma decimal_spec (n : Z) :
  0 <= n ->
  all_digits (Str.decimal n) /\
  (n = 0 -> Str.decimal n = "0"%string) /\
  (0 < n -> exists d, leading_digit n d /\ starts_with d (Str.decimal n)).
Proof.
  intros Hn. apply decimal_fuel_spec. split; [assumption |].
  destruct (Z.eq_dec n 0) as [-> | Hnz]; [reflexivity |].
  rewrite Nat2Z.inj_succ, Z2Nat.id by apply Z.log2_nonneg.
  apply Z.log2_spec. lia.
Qed.

Lemma zfill_digits (k : nat) (n : Z) : all_digits (Str.zfill k n).
Proof.
  induction k as [| k IH]; simpl; [exact I |].
  split; [| assumption].
  exists ((n / 10 ^ Z.of_nat k) mod 10).
  pose proof (Z.mod_pos_bound (n / 10 ^ Z.of_nat k) 10 ltac:(lia)).
  split; [lia | reflexivity].
Qed.

(** Stripping the zeros of a zero-filled field leaves nothing for 0, and
    otherwise a string that starts with the most significant digit. *)
Lemma lstrip_zfill (k : nat) :
  forall n, 0 <= n < 10 ^ Z.of_nat k ->
    (n = 0 -> Str.lstrip "0" (Str.zfill k n) = ""%string) /\
    (0 < n -> exists d, leading_digit n d /\
                        starts_with d (Str.lstrip "0" (Str.zfill k n))).
Proof.
  induction k as [| k IH]; intros n Hn.
  - simpl in *. split; [reflexivity | lia].
  - rewrite Nat2Z.inj_succ, Z.pow_succ_r in Hn by lia.
    cbn [Str.zfill Str.lstrip].
    set (p := 10 ^ Z.of_nat k) in *.
    assert (Hp : 0 < p) by (apply Z.pow_pos_nonneg; lia).
    assert (Hq : 0 <= n / p < 10).
    { split; [apply Z.div_pos; lia | apply Z.div_lt_upper_bound; lia]. }
    rewrite (Z.mod_small (n / p) 10) by assumption.
    rewrite digit_char_is_zero by lia.
    pose proof (Z.div_mod n p ltac:(lia)) as Hdm.
    pose proof (Z.mod_pos_bound n p Hp) as Hmod.
    destruct (Z.eqb_spec (n / p) 0) as [Hz | Hnz].
    + apply IH. rewrite Hz in Hdm. lia.
    + split; [intros ->; rewrite Z.div_0_l in Hnz; lia |].
      intros _. exists (n / p). split.
      * split; [lia |]. exists (Z.of_nat k). fold p. split; [lia | nia].
      * now eexists.
Qed.

(** What is left of a fixed-point rendering once the point and the
    leading zeros are gone: nothing when the rendered number is 0, and
    otherwise a string that starts with its most significant digit. *)
Lemma strip_fixed_point (k : nat) (n : Z) :
  0 <= n ->
  let p := 10 ^ Z.of_nat (S k) in
  let s := Str.lstrip "0" (Str.remove_char "."
             (Str.decimal (n / p) ++ "." ++ Str.zfill (S k) (n mod p))) in
  (n = 0 -> s = ""%string) /\
  (0 < n -> exists d, leading_digit n d /\ starts_with d s).
Proof.
  intros Hn p s.
  assert (Hp : 0 < p) by (apply Z.pow_pos_nonneg; lia).
  pose proof (Z.div_mod n p ltac:(lia)) as Hdm.
  pose proof (Z.mod_pos_bound n p Hp) as Hmod.
  assert (Hq : 0 <= n / p) by (apply Z.div_pos; lia).
  destruct (decimal_spec (n / p) Hq) as (Hall & Hzero & Hhead).
  assert (Hs : s = Str.lstrip "0" (Str.decimal (n / p) ++ Str.zfill (S k) (n mod p))).
  { unfold s. rewrite remove_char_app, (remove_dot_digits _ Hall).
    change ("." ++ Str.zfill (S k) (n mod p))%string
      with (String "." (Str.zfill (S k) (n mod p))).
    cbn [Str.remove_char]. change (Ascii.eqb "." ".") with true. cbv iota.
    now rewrite (remove_dot_digits _ (zfill_digits _ _)). }
  destruct (Z.eq_dec (n / p) 0) as [Hz | Hnz].
  - assert (Hs' : s = Str.lstrip "0" (Str.zfill (S k) (n mod p))).
    { rewrite Hs, (Hzero Hz). reflexivity. }
    rewrite Hz in Hdm. replace (n mod p) with n in * by lia.
    rewrite Hs'. apply lstrip_zfill. fold p. lia.
  - split; [intros ->; rewrite Z.div_0_l in Hnz; lia |].
    intros _. destruct Hhead as (d & Hlead & Hstart); [lia |].
    destruct Hlead as (Hd & j & Hj & Hlo & Hhi).
    exists d. split.
    + split; [assumption |]. exists (j + Z.of_nat (S k)). split; [lia |].
      rewrite Z.pow_add_r by lia. fold p.
      assert (Ht : 0 < 10 ^ j) by (apply Z.pow_pos_nonneg; lia).
      nia.
    + rewrite Hs, (lstrip_starts_with d) by (try apply starts_with_app; assumption).
      now apply starts_with_app.
Qed.

(** ** Rounding to an integer *)

Section Rounding.

Local Open Scope Q_scope.

Lemma round_half_even_cases (x : Q) :
  let r := Float.round_half_even x in
  (inject_Z r == inject_Z (Qfloor x) /\ x - inject_Z (Qfloor x) <= 1 # 2) \/
  (inject_Z r == inject_Z (Qfloor x) + 1 /\ 1 # 2 <= x - inject_Z (Qfloor x)).
Proof.
  unfold Float.round_half_even.
  destruct (Qcompare (x - inject_Z (Qfloor x)) (1 # 2)) eqn:Hc.
  - apply Qeq_alt in Hc. destruct (Z.even (Qfloor x)).
    + left. split; [reflexivity | rewrite Hc; apply Qle_refl].
    + right. split; [rewrite inject_Z_plus; reflexivity
                    | rewrite Hc; apply Qle_refl].
  - apply Qlt_alt in Hc. left. split; [reflexivity | now apply Qlt_le_weak].
  - apply Qgt_alt in Hc. right.
    split; [rewrite inject_Z_plus; reflexivity | now apply Qlt_le_weak].
Qed.

(** The nearest integer is within one half. *)
Lemma round_half_even_near (x : Q) :
  Qabs (inject_Z (Float.round_half_even x) - x) <= 1 # 2.
Proof.
  pose proof (Qfloor_le x) as Hlo.
  pose proof (Qlt_floor x) as Hhi. rewrite inject_Z_plus in Hhi.
  change (inject_Z 1) with 1 in Hhi.
  apply Qabs_Qle_condition.
  destruct (round_half_even_cases x) as [[-> H] | [-> H]]; split; lra.
Qed.

Lemma round_half_even_nonneg (x : Q) :
  0 <= x -> (0 <= Float.round_half_even x)%Z.
Proof.
  intros Hx.
  assert (Hf : (0 <= Qfloor x)%Z).
  { change 0%Z with (Qfloor 0). now apply Qfloor_resp_le. }
  unfold Float.round_half_even.
  destruct (Qcompare _ _); [destruct (Z.even _) | |]; lia.
Qed.

(** An integer is its own rounding. *)
Lemma round_half_even_Z (z : Z) : Float.round_half_even (inject_Z z) = z.
Proof.
  unfold Float.round_half_even. rewrite Qfloor_Z.
  assert (H : Qcompare (inject_Z z - inject_Z z) (1 # 2) = Lt).
  { apply Qlt_alt. setoid_replace (inject_Z z - inject_Z z) with 0 by ring.
    reflexivity. }
  now rewrite H.
Qed.

Lemma round_half_even_comp (x y : Q) :
  x == y -> Float.round_half_even x = Float.round_half_even y.
Proof.
  intros H. unfold Float.round_half_even.
  rewrite (Qfloor_comp _ _ H).
  assert (Hc : Qcompare (x - inject_Z (Qfloor y)) (1 # 2)
               = Qcompare (y - inject_Z (Qfloor y)) (1 # 2)).
  { apply Qcompare_comp; [now rewrite H | reflexivity]. }
  now rewrite Hc.
Qed.

(** Rounding is positive exactly above one half. *)
Lemma round_half_even_pos (x : Q) :
  0 <= x -> ((0 < Float.round_half_even x)%Z <-> 1 # 2 < x).
Proof.
  intros Hx.
  pose proof (Qfloor_le x) as Hlo.
  pose proof (Qlt_floor x) as Hhi. rewrite inject_Z_plus in Hhi.
  change (inject_Z 1) with 1 in Hhi.
  assert (Hf : (0 <= Qfloor x)%Z).
  { change 0%Z with (Qfloor 0). now apply Qfloor_resp_le. }
  unfold Float.round_half_even.
  destruct (Z.eq_dec (Qfloor x) 0) as [Hz | Hnz].
  - rewrite Hz in *. change (Z.even 0) with true.
    change (inject_Z 0) with 0 in *.
    destruct (Qcompare (x - 0) (1 # 2)) eqn:Hc.
    + apply Qeq_alt in Hc. split; [lia | lra].
    + apply Qlt_alt in Hc. split; [lia | lra].
    + apply Qgt_alt in Hc. split; [lra | lia].
  - assert (H1 : (1 <= Qfloor x)%Z) by lia.
    assert (H1q : 1 <= inject_Z (Qfloor x)).
    { change 1 with (inject_Z 1). now rewrite <- Zle_Qle. }
    split; [intros _; lra |]. intros _.
    destruct (Qcompare _ _); [destruct (Z.even _) | |]; lia.
Qed.

End Rounding.

(** ** [get_first_digit] on numbers *)

Lemma Qabs_idem (q : Q) : Qabs (Qabs q) = Qabs q.
Proof. destruct q as [a b]. unfold Qabs. now rewrite Z.abs_idemp. Qed.

Lemma Qeq_bool_Qabs (q : Q) : Qeq_bool (Qabs q) 0 = Qeq_bool q 0.
Proof.
  destruct q as [a b]. unfold Qeq_bool, Qabs. cbn [Qnum Qden].
  rewrite !Z.mul_1_r. cbn [Z.mul].
  destruct a; reflexivity.
Qed.

Lemma scaled_nonneg (q : Q) : 0 <= scaled q.
Proof.
  apply round_half_even_nonneg.
  apply Qmult_le_0_compat; [apply Qabs_nonneg | discriminate].
Qed.

Lemma first_char_digit_render (x : Q) :
  (0 <= x)%Q ->
  (scaled x = 0 -> first_char_digit (Str.format_f 15 x) = Ok None) /\
  (0 < scaled x -> exists d, leading_digit (scaled x) d /\
                     first_char_digit (Str.format_f 15 x) = Ok (Some d)).
Proof.
  intros Hx.
  pose proof (strip_fixed_point 14 (scaled x) (scaled_nonneg x)) as H.
  cbv zeta in H.
  assert (E : first_char_digit (Str.format_f 15 x) =
              match Str.lstrip "0" (Str.remove_char "."
                      (Str.decimal (scaled x / 10 ^ Z.of_nat 15) ++ "." ++
                       Str.zfill 15 (scaled x mod 10 ^ Z.of_nat 15))) with
              | EmptyString => Ok None
              | String c _ => (d <- Str.int_of_char c ;; Ok (Some d))%exc
              end).
  { unfold first_char_digit, Str.format_f.
    destruct (Qlt_le_dec x 0) as [Hneg | _]; [exfalso; lra |].
    reflexivity. }
  rewrite E. destruct H as [H0 Hpos]. split.
  - intros Hz. now rewrite (H0 Hz).
  - intros Hp. destruct (Hpos Hp) as (d & Hlead & rest & ->).
    exists d. split; [assumption |].
    destruct Hlead as [Hd _].
    now rewrite int_of_digit_char by lia.
Qed.

Lemma get_first_digit_body_float (q : Q) :
  Qeq_bool q 0 = false ->
  get_first_digit_body (VFloat (Ffin q)) =
  first_char_digit (Str.format_f 15 (Qabs q)).
Proof.
  intros Hq. unfold get_first_digit_body.
  cbn [pd_isna py_abs Exc.bind eq_zero format_15f format_float].
  rewrite Qeq_bool_Qabs, Hq. reflexivity.
Qed.

(** The result on a finite float: nothing for 0 and for a magnitude that
    rounds to 0 at 15 decimals, and otherwise the most significant digit of
    the magnitude rounded at 15 decimals. *)
Lemma get_first_digit_float (q : Q) :
  (scaled q = 0 -> get_first_digit (VFloat (Ffin q)) = None) /\
  (0 < scaled q -> exists d, leading_digit (scaled q) d /\
                     get_first_digit (VFloat (Ffin q)) = Some d).
Proof.
  unfold get_first_digit.
  destruct (Qeq_bool q 0) eqn:Hq.
  - apply Qeq_bool_eq in Hq.
    assert (Hs : scaled q = 0).
    { unfold scaled. rewrite <- (round_half_even_Z 0).
      apply round_half_even_comp. rewrite Hq. reflexivity. }
    split; [| lia]. intros _.
    unfold get_first_digit_body.
    cbn [pd_isna py_abs Exc.bind eq_zero].
    rewrite Qeq_bool_Qabs.
    assert (Hb : Qeq_bool q 0 = true) by now apply Qeq_eq_bool.
    now rewrite Hb.
  - rewrite (get_first_digit_body_float q Hq).
    destruct (first_char_digit_render (Qabs q) (Qabs_nonneg q)) as [H0 Hpos].
    assert (Es : scaled (Qabs q) = scaled q).
    { unfold scaled. now rewrite Qabs_idem. }
    rewrite Es in *. split.
    + intros Hz. now rewrite (H0 Hz).
    + intros Hp. destruct (Hpos Hp) as (d & Hlead & ->). now exists d.
Qed.

(** ** Rounding to binary64 *)

Section Binary64.

Local Open Scope Q_scope.

Lemma two_neq_0 : ~ 2 == 0.
Proof. discriminate. Qed.

Lemma two_pow_pos (e : Z) : 0 < 2 ^ e.
Proof. apply Qpower_0_lt. reflexivity. Qed.

Lemma two_pow_add (a b : Z) : 2 ^ (a + b) == 2 ^ a * 2 ^ b.
Proof. apply Qpower_plus, two_neq_0. Qed.

Lemma two_pow_Z (n : Z) : (0 <= n)%Z -> inject_Z (2 ^ n) == 2 ^ n.
Proof. intros Hn. now rewrite Zpower_Qpower. Qed.

Lemma two_pow_le (a b : Z) : (a <= b)%Z -> 2 ^ a <= 2 ^ b.
Proof.
  intros H. replace b with (a + (b - a))%Z by lia.
  rewrite two_pow_add.
  assert (H1 : 1 <= 2 ^ (b - a)).
  { rewrite <- two_pow_Z by lia.
    change 1 with (inject_Z 1). rewrite <- Zle_Qle.
    pose proof (Z.pow_pos_nonneg 2 (b - a)). lia. }
  pose proof (two_pow_pos a). nra.
Qed.

(** [ilog2] brackets its argument between two powers of two. *)
Lemma ilog2_spec (x : Q) :
  0 < x -> 2 ^ Float.ilog2 x <= x /\ x < 2 ^ (Float.ilog2 x + 1).
Proof.
  intros Hx. unfold Float.ilog2.
  destruct x as [a b]. cbn [Qnum Qden].
  assert (Ha : (0 < a)%Z).
  { unfold Qlt in Hx. cbn in Hx. lia. }
  set (la := Z.log2 a). set (lb := Z.log2 (Zpos b)).
  destruct (Z.log2_spec a Ha) as [Ha1 Ha2]. fold la in Ha1, Ha2.
  destruct (Z.log2_spec (Zpos b) ltac:(lia)) as [Hb1 Hb2]. fold lb in Hb1, Hb2.
  assert (Hla : (0 <= la)%Z) by apply Z.log2_nonneg.
  assert (Hlb : (0 <= lb)%Z) by apply Z.log2_nonneg.
  assert (EQ : a # b == inject_Z a / inject_Z (Zpos b)) by apply Qmake_Qdiv.
  assert (HB : 0 < inject_Z (Zpos b)) by reflexivity.
  assert (A1 : 2 ^ la <= inject_Z a).
  { rewrite <- two_pow_Z by lia. now rewrite <- Zle_Qle. }
  assert (A2 : inject_Z a < 2 ^ (la + 1)).
  { rewrite <- two_pow_Z by lia. rewrite <- Zlt_Qlt. now rewrite <- Z.add_1_r in Ha2. }
  assert (B1 : 2 ^ lb <= inject_Z (Zpos b)).
  { rewrite <- two_pow_Z by lia. now rewrite <- Zle_Qle. }
  assert (B2 : inject_Z (Zpos b) < 2 ^ (lb + 1)).
  { rewrite <- two_pow_Z by lia. rewrite <- Zlt_Qlt. now rewrite <- Z.add_1_r in Hb2. }
  assert (Hup : a # b < 2 ^ (la - lb + 1)).
  { rewrite EQ. apply Qlt_shift_div_r; [assumption |].
    assert (E : 2 ^ (la + 1) == 2 ^ (la - lb + 1) * 2 ^ lb).
    { rewrite <- two_pow_add. now replace (la - lb + 1 + lb)%Z with (la + 1)%Z by lia. }
    pose proof (two_pow_pos (la - lb + 1)). nra. }
  assert (Hlow : 2 ^ (la - lb - 1) < a # b).
  { rewrite EQ. apply Qlt_shift_div_l; [assumption |].
    assert (E : 2 ^ la == 2 ^ (la - lb - 1) * 2 ^ (lb + 1)).
    { rewrite <- two_pow_add. now replace (la - lb - 1 + (lb + 1))%Z with la by lia. }
    pose proof (two_pow_pos (la - lb - 1)). nra. }
  destruct (Qle_bool (2 ^ (la - lb)) (a # b)) eqn:Hc.
  - apply Qle_bool_iff in Hc. split; assumption.
  - assert (Hlt : a # b < 2 ^ (la - lb)).
    { apply Qnot_le_lt. intros H. apply Qle_bool_iff in H. congruence. }
    replace (la - lb - 1 + 1)%Z with (la - lb)%Z by lia.
    split; [now apply Qlt_le_weak | assumption].
Qed.

Lemma Qabs_of_nonneg (x : Q) : 0 <= x -> Qabs x = x.
Proof.
  destruct x as [a b]. unfold Qle, Qabs. cbn [Qnum Qden]. intros H.
  rewrite Z.abs_eq by lia. reflexivity.
Qed.

(** The value [b64] returns, before normalisation. *)
Lemma b64_value (x : Q) :
  ~ x == 0 ->
  let e := Z.max (Float.ilog2 (Qabs x) - 52) (-1074) in
  Float.b64 x == inject_Z (Float.round_half_even (x / 2 ^ e)) * 2 ^ e.
Proof.
  intros Hx e. unfold Float.b64.
  destruct (Qeq_bool x 0) eqn:Hb.
  - apply Qeq_bool_eq in Hb. contradiction.
  - fold e. apply Qred_correct.
Qed.

Lemma b64_0 (x : Q) : x == 0 -> Float.b64 x = 0.
Proof.
  intros Hx. unfold Float.b64.
  now rewrite (Qeq_eq_bool _ _ Hx).
Qed.

(** The absolute error is half a unit in the last place. *)
Lemma b64_abs_error (x : Q) :
  ~ x == 0 ->
  let e := Z.max (Float.ilog2 (Qabs x) - 52) (-1074) in
  Qabs (Float.b64 x - x) <= 2 ^ (e - 1).
Proof.
  intros Hx e. rewrite (b64_value x Hx). fold e.
  pose proof (round_half_even_near (x / 2 ^ e)) as Hn.
  pose proof (two_pow_pos e) as He.
  set (m := inject_Z (Float.round_half_even (x / 2 ^ e))) in *.
  assert (E : m * 2 ^ e - x == (m - x / 2 ^ e) * 2 ^ e).
  { field. intros H. rewrite H in He. now apply (Qlt_irrefl 0). }
  rewrite E, Qabs_Qmult, (Qabs_pos (2 ^ e)) by now apply Qlt_le_weak.
  assert (E2 : 2 ^ (e - 1) == (1 # 2) * 2 ^ e).
  { replace (e - 1)%Z with (-1 + e)%Z by lia. rewrite two_pow_add. reflexivity. }
  rewrite E2. apply Qmult_le_compat_r; [assumption | now apply Qlt_le_weak].
Qed.

(** In the normal range the error is at most [2 ^ -53] of the value. *)
Lemma b64_rel_error (x : Q) :
  2 ^ (-1022) <= x ->
  Qabs (Float.b64 x - x) <= 2 ^ (-53) * x.
Proof.
  intros Hx.
  assert (Hpos : 0 < x).
  { eapply Qlt_le_trans; [apply (two_pow_pos (-1022)) | assumption]. }
  assert (Hnz : ~ x == 0) by (intros H; rewrite H in Hpos; now apply (Qlt_irrefl 0)).
  pose proof (b64_abs_error x Hnz) as Herr. cbv zeta in Herr.
  rewrite (Qabs_of_nonneg x) in Herr by now apply Qlt_le_weak.
  destruct (ilog2_spec x Hpos) as [Hlo Hhi].
  assert (Hl : (-1022 <= Float.ilog2 x)%Z).
  { destruct (Z_lt_le_dec (Float.ilog2 x) (-1022)) as [Hlt | Hge]; [| assumption].
    exfalso. pose proof (two_pow_le (Float.ilog2 x + 1) (-1022) ltac:(lia)). lra. }
  rewrite Z.max_l in Herr by lia.
  eapply Qle_trans; [exact Herr |].
  replace (Float.ilog2 x - 52 - 1)%Z with (-53 + Float.ilog2 x)%Z by lia.
  rewrite two_pow_add.
  apply Qmult_le_l; [apply two_pow_pos | assumption].
Qed.

Lemma b64_nonneg (x : Q) : 0 <= x -> 0 <= Float.b64 x.
Proof.
  intros Hx. destruct (Qeq_dec x 0) as [Hz | Hnz].
  - rewrite (b64_0 x Hz). apply Qle_refl.
  - rewrite (b64_value x Hnz). cbv zeta.
    set (e := Z.max _ _). pose proof (two_pow_pos e) as He.
    apply Qmult_le_0_compat; [| now apply Qlt_le_weak].
    change 0 with (inject_Z 0). rewrite <- Zle_Qle.
    apply round_half_even_nonneg.
    apply Qle_shift_div_l; [assumption |]. now rewrite Qmult_0_l.
Qed.

End Binary64.

(** ** The leading digit *)

Lemma leading_digit_unique (n d d' : Z) :
  leading_digit n d -> leading_digit n d' -> d = d'.
Proof.
  assert (Hgap : forall a b j j', 1 <= a <= 9 -> 1 <= b <= 9 -> 0 <= j < j' ->
                   a * 10 ^ j <= n < (a + 1) * 10 ^ j ->
                   b * 10 ^ j' <= n < (b + 1) * 10 ^ j' -> False).
  { intros a b j j' Ha Hb Hj [_ Hhi] [Hlo _].
    assert (Hle : 10 ^ (j + 1) <= 10 ^ j') by (apply Z.pow_le_mono_r; lia).
    rewrite Z.pow_add_r in Hle by lia. change (10 ^ 1) with 10 in Hle.
    assert (Hp : 0 < 10 ^ j) by (apply Z.pow_pos_nonneg; lia).
    nia. }
  intros (Hd & j & Hj & H) (Hd' & j' & Hj' & H').
  destruct (Z.lt_total j j') as [Hlt | [-> | Hgt]].
  - exfalso. apply (Hgap d d' j j'); auto with zarith.
  - assert (Hp : 0 < 10 ^ j') by (apply Z.pow_pos_nonneg; lia). nia.
  - exfalso. apply (Hgap d' d j' j); auto with zarith.
Qed.


(** ** [get_first_digit] on every cell *)

Lemma first_char_digit_range (x : Q) :
  (0 <= x)%Q ->
  first_char_digit (Str.format_f 15 x) = Ok None \/
  exists d, 1 <= d <= 9 /\ first_char_digit (Str.format_f 15 x) = Ok (Some d).
Proof.
  intros Hx. destruct (first_char_digit_render x Hx) as [H0 Hpos].
  pose proof (scaled_nonneg x) as Hs.
  destruct (Z.eq_dec (scaled x) 0) as [Hz | Hnz].
  - left. auto.
  - right. destruct Hpos as (d & [Hd _] & E); [lia |]. now exists d.
Qed.

Lemma get_first_digit_body_int (z : Z) :
  z <> 0 ->
  get_first_digit_body (VInt z) =
  (q <- Float.float_of_int (Z.abs z) ;; first_char_digit (Str.format_f 15 q))%exc.
Proof.
  intros Hz. unfold get_first_digit_body.
  cbn [pd_isna py_abs Exc.bind eq_zero format_15f].
  destruct (Z.eqb_spec (Z.abs z) 0) as [H | _]; [lia |].
  destruct (Float.float_of_int (Z.abs z)); reflexivity.
Qed.

Lemma float_of_int_nonneg (z : Z) (q : Q) :
  0 <= z -> Float.float_of_int z = Ok q -> (0 <= q)%Q.
Proof.
  intros Hz. unfold Float.float_of_int.
  destruct (Qle_bool _ _); [discriminate |].
  intros [= <-]. apply b64_nonneg.
  change 0%Q with (inject_Z 0). now rewrite <- Zle_Qle.
Qed.

(** The result is [None] or a digit from 1 to 9, whatever the cell. *)
Lemma get_first_digit_range (n : value) :
  get_first_digit n = None \/
  exists d, get_first_digit n = Some d /\ 1 <= d <= 9.
Proof.
  assert (Hfmt : forall x, (0 <= x)%Q ->
            try_except (first_char_digit (Str.format_f 15 x)) None = None \/
            exists d, try_except (first_char_digit (Str.format_f 15 x)) None = Some d
                      /\ 1 <= d <= 9).
  { intros x Hx. destruct (first_char_digit_range x Hx) as [-> | (d & Hd & ->)];
      [now left | right; now exists d]. }
  assert (Hint : forall z, get_first_digit (VInt z) = None \/
            exists d, get_first_digit (VInt z) = Some d /\ 1 <= d <= 9).
  { intros z. destruct (Z.eq_dec z 0) as [-> | Hz]; [now left |].
    unfold get_first_digit. rewrite (get_first_digit_body_int z Hz).
    destruct (Float.float_of_int (Z.abs z)) as [q |] eqn:E; [| now left].
    apply Hfmt, (float_of_int_nonneg (Z.abs z)); [lia | assumption]. }
  destruct n as [| [| neg | q] | z | b | s |]; try (now left).
  - destruct (get_first_digit_float q) as [H0 Hpos].
    pose proof (scaled_nonneg q) as Hs.
    destruct (Z.eq_dec (scaled q) 0) as [Hz | Hnz]; [left; auto |].
    right. destruct Hpos as (d & [Hd _] & E); [lia |]. now exists d.
  - apply Hint.
  - destruct b; [right; exists 1; split; [reflexivity | lia] | now left].
Qed.

(** A non-zero int that converts to a float is rendered with a non-zero
    digit. *)
Lemma scaled_float_of_int (z : Z) (q : Q) :
  0 < z -> Float.float_of_int z = Ok q -> 0 < scaled q.
Proof.
  intros Hz. unfold Float.float_of_int.
  destruct (Qle_bool _ _); [discriminate |]. intros [= <-].
  set (x := inject_Z z).
  assert (H1 : (1 <= x)%Q).
  { unfold x. change 1%Q with (inject_Z 1). rewrite <- Zle_Qle. lia. }
  assert (Hn : (2 ^ (-1022) <= x)%Q).
  { eapply Qle_trans; [apply (two_pow_le (-1022) 0); lia | exact H1]. }
  pose proof (b64_rel_error x Hn) as Herr.
  pose proof (b64_nonneg x ltac:(lra)) as Hpos.
  apply Qabs_Qle_condition in Herr. destruct Herr as [Hlo _].
  assert (E : (2 ^ (-53) == 1 # 9007199254740992)%Q) by reflexivity.
  rewrite E in Hlo.
  unfold scaled. apply round_half_even_pos.
  - apply Qmult_le_0_compat; [apply Qabs_nonneg | discriminate].
  - rewrite (Qabs_of_nonneg _ Hpos).
    change (inject_Z (10 ^ 15)) with (1000000000000000 # 1)%Q. lra.
Qed.

(** C1, as the specification states it, fails: 1e-16 is a finite non-zero
    float, and it is rendered as 0.000000000000000, so that no digit is
    left. *)
Lemma get_first_digit_nonzero_counterexample :
  ~ (forall n, finite_nonzero n ->
       exists d, get_first_digit n = Some d /\ 1 <= d <= 9).
Proof.
  intros H.
  destruct (H (vfloat (1 # 10 ^ 16))) as (d & E & _).
  - split; [vm_compute; reflexivity | intros Hq; vm_compute in Hq; discriminate].
  - vm_compute in E. discriminate.
Qed.

(** C1, amended: every finite non-zero number whose magnitude does not
    round to zero at 15 decimals (a float above 5e-16, an int that converts
    to a float) has a leading digit between 1 and 9; 0.0045 yields 4. *)
Theorem get_first_digit_nonzero (n : value) :
  renders_nonzero n ->
  (exists d, get_first_digit n = Some d /\ 1 <= d <= 9) /\
  get_first_digit (vfloat (45 # 10000)) = Some 4.
Proof.
  intros Hn. split; [| vm_compute; reflexivity].
  destruct n as [| [| neg | q] | z | b | s |]; try contradiction.
  - cbn [renders_nonzero] in Hn.
    destruct (get_first_digit_float q) as [_ Hpos].
    destruct Hpos as (d & [Hd _] & E); [| now exists d].
    unfold scaled. apply round_half_even_pos.
    + apply Qmult_le_0_compat; [apply Qabs_nonneg | discriminate].
    + change (5 # 10 ^ 16)%Q with (5 # 10000000000000000)%Q in Hn.
      change (inject_Z (10 ^ 15)) with (1000000000000000 # 1)%Q. lra.
  - destruct Hn as (Hz & q & Hq).
    unfold get_first_digit. rewrite (get_first_digit_body_int z Hz), Hq.
    cbn [Exc.bind].
    pose proof (float_of_int_nonneg (Z.abs z) q ltac:(lia) Hq) as Hpos.
    pose proof (scaled_float_of_int (Z.abs z) q ltac:(lia) Hq) as Hs.
    destruct (first_char_digit_render q Hpos) as [_ H].
    destruct (H Hs) as (d & [Hd _] & ->). now exists d.
Qed.

Lemma get_first_digit_nonzero_witness :
  renders_nonzero (vfloat (45 # 10000)) /\
  ((exists d, get_first_digit (vfloat (45 # 10000)) = Some d /\ 1 <= d <= 9) /\
   get_first_digit (vfloat (45 # 10000)) = Some 4).
Proof.
  assert (H : renders_nonzero (vfloat (45 # 10000))) by (vm_compute; reflexivity).
  split; [exact H | exact (get_first_digit_nonzero _ H)].
Defined.

(** ** Arguments of any class *)

Lemma code_point_eqb (a c : ascii) :
  (Dynamic.code_point a =? Dynamic.code_point c) = Ascii.eqb a c.
Proof.
  unfold Dynamic.code_point.
  destruct (Ascii.eqb_spec a c) as [-> | Hne].
  - apply Z.eqb_refl.
  - apply Z.eqb_neq. intros H. apply Hne.
    apply Nat2Z.inj in H.
    now rewrite <- (ascii_nat_embedding a), <- (ascii_nat_embedding c), H.
Qed.

Lemma code_points_remove_char (c : ascii) (s : string) :
  Dynamic.code_points (Str.remove_char c s)
  = Dynamic.remove_char (Dynamic.code_point c) (Dynamic.code_points s).
Proof.
  unfold Dynamic.code_points, Dynamic.remove_char.
  induction s as [| a s IH]; [reflexivity |].
  cbn [Str.remove_char list_ascii_of_string map filter].
  rewrite code_point_eqb.
  destruct (Ascii.eqb a c); cbn [negb list_ascii_of_string map]; now rewrite IH.
Qed.

Lemma code_points_lstrip (c : ascii) (s : string) :
  Dynamic.code_points (Str.lstrip c s)
  = Dynamic.lstrip (Dynamic.code_point c) (Dynamic.code_points s).
Proof.
  unfold Dynamic.code_points.
  induction s as [| a s IH]; [reflexivity |].
  cbn [Str.lstrip list_ascii_of_string map Dynamic.lstrip].
  rewrite code_point_eqb.
  destruct (Ascii.eqb a c); [exact IH | reflexivity].
Qed.

Section AnyClass.

Variable to_decimal : Z -> option Z.
Hypothesis table : decimal_table to_decimal.

(** On a character of a rendered number [int] is the one of the cells. *)
Lemma int_of_code_point (a : ascii) :
  Dynamic.int_of_char to_decimal (Dynamic.code_point a)
  = Dynamic.lift (Str.int_of_char a).
Proof.
  destruct table as [Hlatin _].
  unfold Dynamic.int_of_char, Str.int_of_char, Dynamic.code_point.
  pose proof (nat_ascii_bounded a) as Hb.
  rewrite Hlatin by lia.
  replace (48 <=? Z.of_nat (nat_of_ascii a))
    with (48 <=? nat_of_ascii a)%nat
    by (destruct (Nat.leb_spec 48 (nat_of_ascii a)), (Z.leb_spec 48 (Z.of_nat (nat_of_ascii a)));
        reflexivity || lia).
  replace (Z.of_nat (nat_of_ascii a) <=? 57)
    with (nat_of_ascii a <=? 57)%nat
    by (destruct (Nat.leb_spec (nat_of_ascii a) 57), (Z.leb_spec (Z.of_nat (nat_of_ascii a)) 57);
        reflexivity || lia).
  destruct ((48 <=? nat_of_ascii a)%nat && (nat_of_ascii a <=? 57)%nat); reflexivity.
Qed.

(** On a cell the function on objects is [get_first_digit]: it returns,
    and returns the same. *)
Lemma get_first_digit_of_value (n : value) :
  Dynamic.get_first_digit to_decimal (Dynamic.of_value n)
  = Dynamic.Return (get_first_digit n).
Proof.
  unfold Dynamic.get_first_digit, Dynamic.get_first_digit_body, Dynamic.of_value,
    get_first_digit, get_first_digit_body.
  cbn [Dynamic.isna_truth Dynamic.dunder_abs Dynamic.bind].
  destruct (pd_isna n); [reflexivity |].
  destruct (py_abs n) as [x | e]; [| reflexivity].
  cbn [Exc.bind Dynamic.lift Dynamic.bind Dynamic.of_number Dynamic.eq_zero_truth
       Dynamic.dunder_format].
  destruct (eq_zero x); [reflexivity |].
  destruct (format_15f x) as [s | e]; [| reflexivity].
  cbn [Exc.bind Dynamic.lift Dynamic.bind].
  change 46 with (Dynamic.code_point "."%char).
  change 48 with (Dynamic.code_point "0"%char).
  rewrite <- code_points_remove_char, <- code_points_lstrip.
  destruct (Str.lstrip "0" (Str.remove_char "." s)) as [| c rest]; [reflexivity |].
  unfold Dynamic.code_points. cbn [list_ascii_of_string map].
  rewrite int_of_code_point.
  destruct (Str.int_of_char c); reflexivity.
Qed.

(** On an object of any class: what is raised comes from one of the calls
    and does not derive from [Exception]; what is returned is [None] or a
    decimal value, and 0 only for a zero digit outside Latin-1. *)
Lemma get_first_digit_any (n : Dynamic.pyobject) :
  match Dynamic.get_first_digit to_decimal n with
  | Dynamic.Return None => True
  | Dynamic.Return (Some d) =>
      0 <= d <= 9 /\ (d = 0 -> exists c, 256 <= c /\ stripped_head n c)
  | Dynamic.Throw r => Dynamic.derives_from_Exception r = false /\ raises n r
  end.
Proof.
  destruct table as [Hlatin Hrange].
  unfold Dynamic.get_first_digit, Dynamic.get_first_digit_body, raises, stripped_head.
  destruct n as [na ab]. cbn [Dynamic.isna_truth Dynamic.dunder_abs].
  destruct na as [[|] | r]; cbn [Dynamic.bind Dynamic.try_except]; [exact I | |].
  2: { destruct (Dynamic.derives_from_Exception r) eqn:Hr; [exact I |].
       split; [assumption | now left]. }
  destruct ab as [[ez fm] | r]; cbn [Dynamic.bind Dynamic.try_except
    Dynamic.eq_zero_truth Dynamic.dunder_format].
  2: { destruct (Dynamic.derives_from_Exception r) eqn:Hr; [exact I |].
       split; [assumption | right; now left]. }
  destruct ez as [[|] | r]; cbn [Dynamic.bind Dynamic.try_except]; [exact I | |].
  2: { destruct (Dynamic.derives_from_Exception r) eqn:Hr; [exact I |].
       split; [assumption |]. right; right. eexists. split; [reflexivity |].
       now left. }
  destruct fm as [s | r]; cbn [Dynamic.bind Dynamic.try_except].
  2: { destruct (Dynamic.derives_from_Exception r) eqn:Hr; [exact I |].
       split; [assumption |]. right; right. eexists. split; [reflexivity |].
       now right. }
  destruct (Dynamic.lstrip 48 (Dynamic.remove_char 46 s)) as [| c rest] eqn:Hs;
    [exact I |].
  unfold Dynamic.int_of_char.
  destruct (to_decimal c) as [d |] eqn:Hc; cbn [Dynamic.bind Dynamic.try_except];
    [| exact I].
  split; [exact (Hrange c d Hc) |].
  intros ->. exists c. split.
  - destruct (Z_lt_le_dec c 256) as [Hlt | Hge]; [| assumption].
    exfalso. rewrite (Hlatin c Hlt) in Hc.
    assert (Hne : c <> 48).
    { intros ->. clear -Hs.
      induction (Dynamic.remove_char 46 s) as [| a l IH]; [discriminate |].
      cbn [Dynamic.lstrip] in Hs.
      destruct (Z.eqb_spec a 48) as [-> | Ha]; [auto |].
      injection Hs as -> _. contradiction. }
    destruct ((48 <=? c) && (c <=? 57)); [| discriminate].
    injection Hc as Hc. lia.
  - exists {| Dynamic.eq_zero_truth := Dynamic.Return false;
              Dynamic.dunder_format := Dynamic.Return s |}, s, rest.
    repeat split. assumption.
Qed.

(** C9, as the specification states it, holds for the cells of a sheet
    and fails for other arguments: see the counterexample below.  C9,
    amended: on every value a cell can hold, [get_first_digit] returns (it
    raises nothing) [None] or a digit from 1 to 9, never 0, and [None] on
    the infinities, NaN, missing cells, text and objects without [abs].  On
    an object of any other class it raises only what one of the special
    methods raises outside [Exception], and returns [None] or an int from
    0 to 9, 0 only when the formatted text, stripped, starts with a zero
    digit outside Latin-1. *)
Theorem get_first_digit_total :
  (forall n : value,
     Dynamic.get_first_digit to_decimal (Dynamic.of_value n)
     = Dynamic.Return (get_first_digit n) /\
     (get_first_digit n = None \/
      exists d, get_first_digit n = Some d /\ 1 <= d <= 9) /\
     get_first_digit n <> Some 0) /\
  (forall neg, get_first_digit (VFloat (Finf neg)) = None) /\
  get_first_digit (VFloat Fnan) = None /\
  get_first_digit VNone = None /\
  (forall s, get_first_digit (VStr s) = None) /\
  get_first_digit VObject = None /\
  (forall n : Dynamic.pyobject,
     match Dynamic.get_first_digit to_decimal n with
     | Dynamic.Return None => True
     | Dynamic.Return (Some d) =>
         0 <= d <= 9 /\ (d = 0 -> exists c, 256 <= c /\ stripped_head n c)
     | Dynamic.Throw r => Dynamic.derives_from_Exception r = false /\ raises n r
     end).
Proof.
  split.
  { intros n. split; [apply get_first_digit_of_value |].
    split; [apply get_first_digit_range |].
    destruct (get_first_digit_range n) as [-> | (d & -> & Hd)];
      [discriminate | intros [= ->]; lia]. }
  split; [intros []; reflexivity |].
  do 4 (split; [reflexivity |]).
  apply get_first_digit_any.
Qed.

End AnyClass.

Lemma sample_decimal_table : decimal_table sample_decimal.
Proof.
  split.
  - intros c Hc. unfold sample_decimal.
    destruct ((48 <=? c) && (c <=? 57)); [reflexivity |].
    destruct (Z.leb_spec 65296 c); [lia | reflexivity].
  - intros c d. unfold sample_decimal.
    destruct (Z.leb_spec 48 c), (Z.leb_spec c 57); cbn [andb];
      try (intros [= <-]; lia);
      destruct (Z.leb_spec 65296 c), (Z.leb_spec c 65305); cbn [andb];
      try discriminate; intros [= <-]; lia.
Qed.

(** C9, as the specification states it, fails on two arguments that are
    not cells.  An object that is formatted to the fullwidth digit zero
    ([U+FF10], of decimal value 0, which [lstrip('0')] leaves) has the
    result 0; and a [KeyboardInterrupt] raised by [__abs__] is not caught
    by [except Exception]. *)
Lemma get_first_digit_total_counterexample :
  (forall to_decimal : Z -> option Z,
     to_decimal 65296 = Some 0 ->
     Dynamic.get_first_digit to_decimal fullwidth_zero = Dynamic.Return (Some 0)) /\
  Dynamic.get_first_digit sample_decimal fullwidth_zero = Dynamic.Return (Some 0) /\
  (forall to_decimal : Z -> option Z,
     Dynamic.get_first_digit to_decimal interrupted
     = Dynamic.Throw (Dynamic.Exiting "KeyboardInterrupt")).
Proof.
  split; [| split; [reflexivity | reflexivity]].
  intros to_decimal H.
  unfold Dynamic.get_first_digit, Dynamic.get_first_digit_body, fullwidth_zero,
    Dynamic.int_of_char.
  cbn [Dynamic.isna_truth Dynamic.dunder_abs Dynamic.eq_zero_truth
       Dynamic.dunder_format Dynamic.bind Dynamic.remove_char Dynamic.lstrip
       filter negb Z.eqb Pos.eqb].
  now rewrite H.
Qed.

Lemma get_first_digit_total_witness :
  Dynamic.get_first_digit sample_decimal (Dynamic.of_value (VStr "bad"))
  = Dynamic.Return (get_first_digit (VStr "bad")) /\
  get_first_digit (VStr "bad") = None.
Proof.
  destruct (get_first_digit_total sample_decimal sample_decimal_table)
    as (Hcell & _ & _ & _ & Hstr & _).
  split; [exact (proj1 (Hcell (VStr "bad"))) | exact (Hstr "bad"%string)].
Defined.

(** ** The leading digit of a float within a margin *)


(** ** Series *)

Section SeriesFacts.

Context {V : Type}.

Lemma get_set (i : Z) (v : V) (s : Series.t V) (j : Z) :
  Series.get (Series.set i v s) j = if i =? j then Ok v else Series.get s j.
Proof.
  induction s as [| [k w] s IH]; cbn [Series.set Series.get].
  - destruct (Z.eqb_spec i j); reflexivity.
  - destruct (Z.eqb_spec k i) as [-> | Hki]; cbn [Series.get].
    + destruct (Z.eqb_spec i j); reflexivity.
    + rewrite IH.
      destruct (Z.eqb_spec k j) as [-> | Hkj]; [| reflexivity].
      destruct (Z.eqb_spec i j); [congruence | reflexivity].
Qed.

Lemma get_insert_sorted (p : Z * V) (s : Series.t V) (j : Z) :
  Series.get (Series.insert_sorted p s) j =
  if fst p =? j then Ok (snd p) else Series.get s j.
Proof.
  destruct p as [i v]. cbn [fst snd].
  induction s as [| [k w] s IH]; cbn [Series.insert_sorted Series.get fst].
  - reflexivity.
  - destruct (Z.leb_spec i k) as [Hle | Hgt]; cbn [Series.get].
    + reflexivity.
    + rewrite IH.
      destruct (Z.eqb_spec k j) as [-> | Hkj]; [| reflexivity].
      destruct (Z.eqb_spec i j); [lia | reflexivity].
Qed.

(** Sorting by label changes no lookup. *)
Lemma get_sort_index (s : Series.t V) (j : Z) :
  Series.get (Series.sort_index s) j = Series.get s j.
Proof.
  induction s as [| [k w] s IH]; [reflexivity |].
  unfold Series.sort_index in *. cbn [fold_right].
  rewrite get_insert_sorted, IH. reflexivity.
Qed.

Lemma mem_get (i : Z) (s : Series.t V) :
  Series.mem i s = match Series.get s i with Ok _ => true | Raise _ => false end.
Proof.
  unfold Series.mem, Series.index.
  induction s as [| [k w] s IH]; [reflexivity |].
  cbn [map existsb fst Series.get]. rewrite IH, (Z.eqb_sym i k).
  destruct (k =? i); reflexivity.
Qed.

Lemma get_map_values {W : Type} (f : V -> W) (s : Series.t V) (j : Z) :
  Series.get (map (fun p => (fst p, f (snd p))) s) j =
  match Series.get s j with Ok v => Ok (f v) | Raise e => Raise e end.
Proof.
  induction s as [| [k w] s IH]; [reflexivity |].
  cbn [map Series.get fst snd]. rewrite IH.
  destruct (k =? j); reflexivity.
Qed.

Lemma get_map_keys (f : Z -> V) (l : list Z) (j : Z) :
  In j l -> Series.get (map (fun d => (d, f d)) l) j = Ok (f j).
Proof.
  induction l as [| k l IH]; [contradiction |].
  cbn [map Series.get]. intros [-> | Hin].
  - now rewrite Z.eqb_refl.
  - destruct (Z.eqb_spec k j) as [-> | _]; [reflexivity | auto].
Qed.

End SeriesFacts.

Lemma count_nonneg (l : list Z) (j : Z) : 0 <= count l j.
Proof. unfold count. lia. Qed.

Lemma count_cons (k : Z) (l : list Z) (j : Z) :
  count (k :: l) j = (if k =? j then 1 else 0) + count l j.
Proof.
  unfold count. cbn [count_occ].
  destruct (Z.eq_dec k j) as [-> | Hne].
  - rewrite Z.eqb_refl. lia.
  - destruct (Z.eqb_spec k j); [contradiction | lia].
Qed.

Lemma get_bump (k : Z) (s : Series.t Z) (j : Z) :
  Series.get (Series.bump k s) j =
  if k =? j
  then Ok (match Series.get s k with Ok c => c + 1 | Raise _ => 1 end)
  else Series.get s j.
Proof.
  unfold Series.bump. destruct (Series.get s k); now rewrite get_set.
Qed.

Lemma get_value_counts_from (l : list Z) :
  forall (s : Series.t Z) (j : Z),
    Series.get (fold_left (fun s k => Series.bump k s) l s) j =
    match Series.get s j with
    | Ok c => Ok (c + count l j)
    | Raise e => if count l j =? 0 then Raise e else Ok (count l j)
    end.
Proof.
  induction l as [| k l IH]; intros s j.
  - cbn [fold_left]. unfold count. cbn. destruct (Series.get s j); [f_equal; lia | reflexivity].
  - cbn [fold_left]. rewrite IH, get_bump, count_cons.
    pose proof (count_nonneg l j) as Hc.
    destruct (Z.eqb_spec k j) as [-> | Hne].
    + destruct (Series.get s j); [f_equal; lia |].
      destruct (Z.eqb_spec (1 + count l j) 0); [lia | f_equal; lia].
    + reflexivity.
Qed.

(** [value_counts] holds exactly the values that occur, each with its
    number of occurrences. *)
Lemma get_value_counts (l : list Z) (j : Z) :
  Series.get (Series.value_counts l) j =
  if count l j =? 0 then Raise KeyError else Ok (count l j).
Proof. unfold Series.value_counts. now rewrite get_value_counts_from. Qed.

Lemma get_fill (ds : list Z) :
  forall (s : Series.t Z) (j : Z),
    Series.get
      (fold_left (fun dc i => if Series.mem i dc then dc else Series.set i 0 dc) ds s) j =
    match Series.get s j with
    | Ok c => Ok c
    | Raise e => if existsb (Z.eqb j) ds then Ok 0 else Raise e
    end.
Proof.
  induction ds as [| i ds IH]; intros s j.
  - cbn. now destruct (Series.get s j).
  - cbn [fold_left existsb]. rewrite IH, mem_get.
    destruct (Series.get s i) as [c |] eqn:Ei.
    + destruct (Series.get s j) as [c' |] eqn:Ej; [reflexivity |].
      destruct (Z.eqb_spec j i) as [-> | _]; [congruence | reflexivity].
    + rewrite get_set, (Z.eqb_sym j i).
      destruct (Z.eqb_spec i j) as [-> | _]; [now rewrite Ei |].
      reflexivity.
Qed.

Lemma range_1_10 : range 1 10 = [1; 2; 3; 4; 5; 6; 7; 8; 9].
Proof. reflexivity. Qed.

Lemma in_range_1_10 (d : Z) : In d (range 1 10) <-> 1 <= d <= 9.
Proof.
  rewrite range_1_10. cbn [In]. lia.
Qed.

(** Every digit has its entry in the table of counts: the number of its
    occurrences, 0 when there is none. *)
Lemma get_digit_counts (l : list Z) (d : Z) :
  1 <= d <= 9 -> Series.get (digit_counts_of l) d = Ok (count l d).
Proof.
  intros Hd. unfold digit_counts_of.
  rewrite get_sort_index, get_fill, get_sort_index, get_value_counts.
  assert (Hin : existsb (Z.eqb d) (range 1 10) = true).
  { apply existsb_exists. exists d. split; [now apply in_range_1_10 | apply Z.eqb_refl]. }
  rewrite Hin.
  destruct (Z.eqb_spec (count l d) 0) as [-> | _]; reflexivity.
Qed.

(** ** The digits of a column *)

Lemma first_digits_range (column : list value) (d : Z) :
  In d (first_digits_of column) -> 1 <= d <= 9.
Proof.
  unfold first_digits_of. rewrite in_flat_map.
  intros (v & _ & Hd).
  destruct (get_first_digit_range v) as [E | (d' & E & Hd')]; rewrite E in Hd.
  - contradiction.
  - destruct Hd as [<- | []]. assumption.
Qed.

(** Counting digit by digit counts every entry once. *)
Lemma zsum_counts (l : list Z) :
  (forall d, In d l -> 1 <= d <= 9) ->
  zsum (map (count l) (range 1 10)) = Z.of_nat (List.length l).
Proof.
  rewrite range_1_10. cbn [map zsum fold_right].
  induction l as [| k l IH]; intros Hl.
  - reflexivity.
  - rewrite !count_cons. cbn [List.length]. rewrite Nat2Z.inj_succ.
    assert (Hk : 1 <= k <= 9) by (apply Hl; now left).
    assert (IH' := IH (fun d Hd => Hl d (or_intror Hd))).
    assert (E : (if k =? 1 then 1 else 0) + (if k =? 2 then 1 else 0)
                + (if k =? 3 then 1 else 0) + (if k =? 4 then 1 else 0)
                + (if k =? 5 then 1 else 0) + (if k =? 6 then 1 else 0)
                + (if k =? 7 then 1 else 0) + (if k =? 8 then 1 else 0)
                + (if k =? 9 then 1 else 0) = 1).
    { assert (Hc : k = 1 \/ k = 2 \/ k = 3 \/ k = 4 \/ k = 5 \/ k = 6 \/ k = 7
                   \/ k = 8 \/ k = 9) by lia.
      repeat (destruct Hc as [-> | Hc]; [reflexivity |]). now subst k. }
    lia.
Qed.

Lemma traverse_ok {A B} (f : A -> result B) (g : A -> B) (l : list A) :
  (forall a, In a l -> f a = Ok (g a)) -> traverse f l = Ok (map g l).
Proof.
  induction l as [| a l IH]; intros H; [reflexivity |].
  cbn [traverse map]. rewrite (H a (or_introl eq_refl)). cbn [Exc.bind].
  rewrite IH by (intros b Hb; apply H; now right). reflexivity.
Qed.

(** ** The run *)

Arguments first_digits_of : simpl never.
Arguments digit_counts_of : simpl never.
Arguments actual_freq_of : simpl never.
Arguments benford_freq : simpl never.
Arguments traverse : simpl never.
Arguments range : simpl never.
Arguments has_column : simpl never.
Arguments df_get : simpl never.

Section Run.

Variable math_log10 : Q -> Q.

Lemma get_actual_freq (l : list Z) (d : Z) :
  1 <= d <= 9 ->
  Series.get (actual_freq_of (digit_counts_of l) (Z.of_nat (List.length l))) d
  = Ok (observed l d).
Proof.
  intros Hd. unfold actual_freq_of.
  rewrite (get_map_values
             (fun c => Float.fdiv (Float.b64 (inject_Z c))
                         (Float.b64 (inject_Z (Z.of_nat (List.length l)))))).
  now rewrite get_digit_counts.
Qed.

Lemma get_benford_freq (d : Z) :
  1 <= d <= 9 -> Series.get (benford_freq math_log10) d = Ok (expected math_log10 d).
Proof.
  intros Hd. unfold benford_freq.
  apply (get_map_keys
           (fun d => math_log10 (Float.fadd 1 (Float.fdiv 1 (inject_Z d))))).
  now apply in_range_1_10.
Qed.

(** No lookup of the report loop fails. *)
Lemma rows_ok (l : list Z) :
  traverse (report_row math_log10 (digit_counts_of l)
              (actual_freq_of (digit_counts_of l) (Z.of_nat (List.length l))))
           (range 1 10)
  = Ok (map (row_of math_log10 l) (range 1 10)).
Proof.
  apply traverse_ok. intros d Hd. apply in_range_1_10 in Hd.
  unfold report_row.
  rewrite get_digit_counts, get_actual_freq, get_benford_freq by assumption.
  reflexivity.
Qed.

Lemma actual_values_ok (l : list Z) :
  traverse (percent (actual_freq_of (digit_counts_of l) (Z.of_nat (List.length l))))
           (range 1 10)
  = Ok (map (fun d => Float.fmul (observed l d) 100) (range 1 10)).
Proof.
  apply traverse_ok. intros d Hd. apply in_range_1_10 in Hd.
  unfold percent. now rewrite get_actual_freq.
Qed.

Lemma benford_values_ok :
  traverse (percent (benford_freq math_log10)) (range 1 10)
  = Ok (map (fun d => Float.fmul (expected math_log10 d) 100) (range 1 10)).
Proof.
  apply traverse_ok. intros d Hd. apply in_range_1_10 in Hd.
  unfold percent. now rewrite get_benford_freq.
Qed.

End Run.

Section RunMain.

Variable math_log10 : Q -> Q.

Lemma has_column_get (name : string) (df : dataframe) :
  has_column name df = true -> exists column, df_get df name = Ok column.
Proof.
  unfold has_column, df_columns, df_get.
  induction df as [| [k col] df IH]; cbn [map existsb fst]; [discriminate |].
  rewrite (String.eqb_sym name k).
  destruct (String.eqb k name); [now exists col | exact IH].
Qed.

Lemma main_load_error (w : world) (e : string) :
  sheet w = inl e ->
  main math_log10 w = (inr LoadError, emit [Print (ErrorLoading e)] (loaded w)).
Proof.
  destruct w as [o f s t]. cbn [sheet]. intros ->.
  unfold emit, loaded, prologue.
  destruct o; cbn; rewrite <- ?app_assoc; reflexivity.
Qed.

Lemma main_no_column (w : world) (df : dataframe) :
  sheet w = inr df ->
  process_column_of df = None ->
  main math_log10 w =
  (inr ColumnNotFoundError,
   emit [Print DataLoaded; Print NeitherColumn;
         Print (AvailableColumns (df_columns df))] (loaded w)).
Proof.
  destruct w as [o f s t]. cbn [sheet]. intros -> Hsel.
  unfold process_column_of in Hsel.
  destruct (has_column "Amount" df) eqn:H1; [discriminate |].
  destruct (has_column "AbsoluteAmount" df) eqn:H2; [discriminate |].
  unfold emit, loaded, prologue, main.
  destruct o; cbn; rewrite H1, H2; cbn; rewrite <- ?app_assoc; reflexivity.
Qed.

Lemma main_no_data (w : world) (df : dataframe) (name : string)
      (fallback : bool) (column : list value) :
  sheet w = inr df ->
  process_column_of df = Some (name, fallback) ->
  df_get df name = Ok column ->
  first_digits_of column = [] ->
  main math_log10 w =
  (inr NoDataError,
   emit (selection_events fallback name ++ [Print NoValidData]) (loaded w)).
Proof.
  destruct w as [o f s t]. cbn [sheet]. intros -> Hsel Hcol Hnone.
  unfold process_column_of in Hsel.
  unfold emit, loaded, prologue, selection_events, main.
  destruct (has_column "Amount" df) eqn:H1.
  - injection Hsel as <- <-.
    destruct o; cbn; rewrite H1; cbn; rewrite Hcol; cbn; rewrite Hnone; cbn;
      rewrite <- ?app_assoc; reflexivity.
  - destruct (has_column "AbsoluteAmount" df) eqn:H2; [| discriminate].
    injection Hsel as <- <-.
    destruct o; cbn; rewrite H1, H2; cbn; rewrite Hcol; cbn; rewrite Hnone; cbn;
      rewrite <- ?app_assoc; reflexivity.
Qed.

Lemma main_done (w : world) (df : dataframe) (name : string)
      (fallback : bool) (column : list value) :
  sheet w = inr df ->
  process_column_of df = Some (name, fallback) ->
  df_get df name = Ok column ->
  first_digits_of column <> [] ->
  output_node w <> RegularFile ->
  let l := first_digits_of column in
  main math_log10 w =
  (inl tt,
   {| output_node := Directory;
      files := IO.put_file chart_path (ChartFile (chart_of math_log10 l))
                 (IO.put_file report_path
                    (ReportFile (report_of math_log10 name l)) (files w));
      sheet := sheet w;
      trace := trace w ++ prologue w ++ selection_events fallback name
                 ++ analysis_events math_log10 name l |}).
Proof.
  destruct w as [o f s t]. cbv zeta. cbn [sheet output_node files trace].
  intros -> Hsel Hcol Hsome Ho.
  unfold process_column_of in Hsel.
  unfold prologue, selection_events, analysis_events, report_of, chart_of, main.
  pose proof (rows_ok math_log10 (first_digits_of column)) as Hrows.
  pose proof (actual_values_ok (first_digits_of column)) as Hact.
  pose proof (benford_values_ok math_log10) as Hben.
  destruct (first_digits_of column) as [| d0 l'] eqn:Hl; [contradiction |].
  destruct (has_column "Amount" df) eqn:H1.
  - injection Hsel as <- <-.
    destruct o; try contradiction;
      cbn -[Z.of_nat List.length]; rewrite H1; cbn -[Z.of_nat List.length]; rewrite Hcol; cbn -[Z.of_nat List.length]; rewrite Hl; cbn -[Z.of_nat List.length];
      rewrite Hrows; cbn -[Z.of_nat List.length]; rewrite Hact; cbn -[Z.of_nat List.length]; rewrite Hben; unfold IO.print, IO.log; cbn -[Z.of_nat List.length];
      rewrite <- ?app_assoc; reflexivity.
  - destruct (has_column "AbsoluteAmount" df) eqn:H2; [| discriminate].
    injection Hsel as <- <-.
    destruct o; try contradiction;
      cbn -[Z.of_nat List.length]; rewrite H1, H2; cbn -[Z.of_nat List.length]; rewrite Hcol; cbn -[Z.of_nat List.length]; rewrite Hl; cbn -[Z.of_nat List.length];
      rewrite Hrows; cbn -[Z.of_nat List.length]; rewrite Hact; cbn -[Z.of_nat List.length]; rewrite Hben; unfold IO.print, IO.log; cbn -[Z.of_nat List.length];
      rewrite <- ?app_assoc; reflexivity.
Qed.

End RunMain.

(** ** Files *)

Lemma node_eq_dec (a b : node) : {a = b} + {a <> b}.
Proof. decide equality. Qed.

Lemma file_at_put_same (path : string) (a : artifact) (fs : list (string * artifact)) :
  file_at path (IO.put_file path a fs) = Some a.
Proof.
  induction fs as [| [p b] fs IH]; cbn [IO.put_file file_at].
  - now rewrite String.eqb_refl.
  - destruct (String.eqb p path) eqn:E; cbn [file_at]; rewrite E; auto.
Qed.

Lemma file_at_put_other (path other : string) (a : artifact)
      (fs : list (string * artifact)) :
  String.eqb other path = false ->
  file_at path (IO.put_file other a fs) = file_at path fs.
Proof.
  intros Hne.
  induction fs as [| [p b] fs IH]; cbn [IO.put_file file_at].
  - now rewrite Hne.
  - destruct (String.eqb p other) eqn:E; cbn [file_at].
    + apply String.eqb_eq in E. subst p. now rewrite Hne.
    + now rewrite IH.
Qed.

Section Outcomes.

Variable math_log10 : Q -> Q.

Lemma main_unwritable (w : world) (df : dataframe) (name : string)
      (fallback : bool) (column : list value) :
  sheet w = inr df ->
  process_column_of df = Some (name, fallback) ->
  df_get df name = Ok column ->
  first_digits_of column <> [] ->
  output_node w = RegularFile ->
  main math_log10 w =
  (inr (Uncaught OSError),
   emit (selection_events fallback name ++
         [Print (TotalValidEntries
                   (Z.of_nat (List.length (first_digits_of column))))])
        (loaded w)).
Proof.
  destruct w as [o f s t]. cbn [sheet output_node files trace].
  intros -> Hsel Hcol Hsome ->.
  unfold process_column_of in Hsel.
  unfold emit, loaded, prologue, selection_events, main.
  pose proof (rows_ok math_log10 (first_digits_of column)) as Hrows.
  destruct (first_digits_of column) as [| d0 l'] eqn:Hl; [contradiction |].
  destruct (has_column "Amount" df) eqn:H1.
  - injection Hsel as <- <-.
    cbn -[Z.of_nat List.length]; rewrite H1; cbn -[Z.of_nat List.length];
      rewrite Hcol; cbn -[Z.of_nat List.length]; rewrite Hl;
      cbn -[Z.of_nat List.length]; rewrite Hrows; cbn -[Z.of_nat List.length];
      rewrite <- ?app_assoc; reflexivity.
  - destruct (has_column "AbsoluteAmount" df) eqn:H2; [| discriminate].
    injection Hsel as <- <-.
    cbn -[Z.of_nat List.length]; rewrite H1, H2; cbn -[Z.of_nat List.length];
      rewrite Hcol; cbn -[Z.of_nat List.length]; rewrite Hl;
      cbn -[Z.of_nat List.length]; rewrite Hrows; cbn -[Z.of_nat List.length];
      rewrite <- ?app_assoc; reflexivity.
Qed.

Lemma process_column_get (df : dataframe) (name : string) (fallback : bool) :
  process_column_of df = Some (name, fallback) ->
  exists column, df_get df name = Ok column.
Proof.
  unfold process_column_of.
  destruct (has_column "Amount" df) eqn:H1.
  - intros [= <- <-]. now apply has_column_get.
  - destruct (has_column "AbsoluteAmount" df) eqn:H2; [| discriminate].
    intros [= <- <-]. now apply has_column_get.
Qed.

(** Once a column is chosen, the run goes on with it: the events after
    the loading start with the selection's. *)
Lemma main_selected (w : world) (df : dataframe) (name : string) (fallback : bool) :
  sheet w = inr df ->
  process_column_of df = Some (name, fallback) ->
  exists rest,
    trace (snd (main math_log10 w)) =
    trace w ++ prologue w ++ selection_events fallback name ++ rest.
Proof.
  intros Hs Hsel.
  destruct (process_column_get df name fallback Hsel) as [column Hcol].
  destruct (first_digits_of column) as [| d0 l'] eqn:Hl.
  - rewrite (main_no_data math_log10 w df name fallback column Hs Hsel Hcol Hl).
    exists [Print NoValidData]. cbn [snd emit loaded trace].
    now rewrite <- app_assoc.
  - assert (Hne : first_digits_of column <> []) by (rewrite Hl; discriminate).
    destruct (output_node w) eqn:Ho.
    + rewrite (main_done math_log10 w df name fallback column Hs Hsel Hcol Hne)
        by (rewrite Ho; discriminate).
      eexists. cbn [snd trace]. reflexivity.
    + rewrite (main_done math_log10 w df name fallback column Hs Hsel Hcol Hne)
        by (rewrite Ho; discriminate).
      eexists. cbn [snd trace]. reflexivity.
    + rewrite (main_unwritable w df name fallback column Hs Hsel Hcol Hne Ho).
      eexists. cbn [snd emit loaded trace].
      rewrite <- !app_assoc. reflexivity.
Qed.

End Outcomes.

(** ** The claims on the run *)

Section Claims.

Variable math_log10 : Q -> Q.

(** C5: on a loaded sheet the column Amount is processed when there is
    one; otherwise AbsoluteAmount, after the notice of the fallback;
    otherwise the run ends with ColumnNotFoundError after printing the
    names of the columns, and writes no file. *)
Theorem column_selection (w : world) (df : dataframe) :
  sheet w = inr df ->
  let r := fst (main math_log10 w) in
  let w' := snd (main math_log10 w) in
  (has_column "Amount" df = true ->
   exists rest,
     trace w' = trace w ++ prologue w
                ++ [Print DataLoaded; Print (ProcessingColumn "Amount")] ++ rest) /\
  (has_column "Amount" df = false -> has_column "AbsoluteAmount" df = true ->
   exists rest,
     trace w' = trace w ++ prologue w
                ++ [Print DataLoaded; Print AmountNotFound;
                    Print (ProcessingColumn "AbsoluteAmount")] ++ rest) /\
  (has_column "Amount" df = false -> has_column "AbsoluteAmount" df = false ->
   r = inr ColumnNotFoundError /\
   trace w' = trace w ++ prologue w
              ++ [Print DataLoaded; Print NeitherColumn;
                  Print (AvailableColumns (df_columns df))] /\
   files w' = files w).
Proof.
  intros Hs r w'. subst r w'. split; [| split].
  - intros H1.
    apply (main_selected math_log10 w df "Amount" false Hs).
    unfold process_column_of. now rewrite H1.
  - intros H1 H2.
    apply (main_selected math_log10 w df "AbsoluteAmount" true Hs).
    unfold process_column_of. now rewrite H1, H2.
  - intros H1 H2.
    rewrite (main_no_column math_log10 w df Hs)
      by (unfold process_column_of; now rewrite H1, H2).
    cbn [fst snd emit loaded trace files].
    rewrite <- app_assoc. auto.
Qed.


Lemma first_digits_none (column : list value) :
  (forall v, In v column -> get_first_digit v = None) ->
  first_digits_of column = [].
Proof.
  unfold first_digits_of.
  induction column as [| v column IH]; intros H; [reflexivity |].
  cbn [flat_map]. rewrite (H v (or_introl eq_refl)), IH; [reflexivity |].
  intros u Hu. apply H. now right.
Qed.

(** C6: when no cell of the chosen column has a leading digit, the run
    ends with NoDataError after its message, and writes neither the
    report nor the chart. *)
Theorem no_valid_data (w : world) (df : dataframe) (name : string)
        (fallback : bool) (column : list value) :
  sheet w = inr df ->
  process_column_of df = Some (name, fallback) ->
  df_get df name = Ok column ->
  (forall v, In v column -> get_first_digit v = None) ->
  let r := fst (main math_log10 w) in
  let w' := snd (main math_log10 w) in
  r = inr NoDataError /\
  trace w' = trace w ++ prologue w ++ selection_events fallback name
             ++ [Print NoValidData] /\
  files w' = files w /\
  file_at report_path (files w') = file_at report_path (files w) /\
  file_at chart_path (files w') = file_at chart_path (files w).
Proof.
  intros Hs Hsel Hcol Hnone r w'. subst r w'.
  rewrite (main_no_data math_log10 w df name fallback column Hs Hsel Hcol
             (first_digits_none column Hnone)).
  cbn [fst snd emit loaded trace files].
  rewrite <- app_assoc. auto.
Qed.

(** C10, amended: the path [output] is tested, and created and announced
    when absent, before the sheet is read; a run whose loading fails ends
    with LoadError, writes no file, and leaves the path [output] in
    existence: as a directory, unless it was a regular file already. *)
Theorem load_error_directory (w : world) (e : string) :
  sheet w = inl e ->
  let r := fst (main math_log10 w) in
  let w' := snd (main math_log10 w) in
  r = inr LoadError /\
  output_node w' <> Absent /\
  (output_node w <> RegularFile -> output_node w' = Directory) /\
  files w' = files w /\
  trace w' = trace w ++ prologue w ++ [Print (ErrorLoading e)] /\
  (output_node w = Absent ->
   prologue w = [Print Starting; Makedirs output_dir;
                 Print (CreatedDirectory output_dir); ReadExcel file_path]).
Proof.
  intros Hs r w'. subst r w'.
  rewrite (main_load_error math_log10 w e Hs).
  cbn [fst snd emit loaded trace files output_node].
  rewrite <- app_assoc. unfold prologue.
  destruct (output_node w); repeat split; try discriminate; try reflexivity;
    try contradiction.
Qed.


End Claims.

(** C10, as stated, fails: when [output] is a regular file, the test
    [os.path.exists] holds, nothing is created, and after the failed
    loading there is still no output directory. *)
Lemma load_error_directory_counterexample :
  ~ (forall (math_log10 : Q -> Q) (w : world) (e : string),
       sheet w = inl e ->
       fst (main math_log10 w) = inr LoadError ->
       output_node (snd (main math_log10 w)) = Directory).
Proof.
  intros H.
  specialize (H libm_log10
                {| output_node := RegularFile; files := [];
                   sheet := inl "No such file"%string; trace := [] |}
                "No such file"%string eq_refl eq_refl).
  discriminate H.
Qed.


Lemma column_selection_witness :
  exists rest,
    trace (snd (main libm_log10 (fresh (inr scenario)))) =
    trace (fresh (inr scenario)) ++ prologue (fresh (inr scenario))
      ++ [Print DataLoaded; Print (ProcessingColumn "Amount")] ++ rest.
Proof.
  exact (proj1 (column_selection libm_log10 (fresh (inr scenario)) scenario eq_refl) eq_refl).
Defined.

Lemma no_valid_data_witness :
  fst (main libm_log10
         (fresh (inr [("Amount"%string, [VInt 0; VStr "bad"; VNone])])))
  = inr NoDataError.
Proof.
  refine (proj1 (no_valid_data libm_log10
                   (fresh (inr [("Amount"%string, [VInt 0; VStr "bad"; VNone])]))
                   [("Amount"%string, [VInt 0; VStr "bad"; VNone])]
                   "Amount" false [VInt 0; VStr "bad"; VNone]
                   eq_refl eq_refl eq_refl _)).
  intros v [<- | [<- | [<- | []]]]; reflexivity.
Defined.

Lemma load_error_directory_witness :
  output_node (snd (main libm_log10 (fresh (inl "No such file"%string))))
  = Directory.
Proof.
  refine (proj1 (proj2 (proj2 (load_error_directory libm_log10
            (fresh (inl "No such file"%string)) "No such file"%string eq_refl))) _).
  discriminate.
Defined.


(** ** Observed frequencies *)

Section Observed.

Local Open Scope Q_scope.

Lemma Qred_inject_Z (c : Z) : Qred (inject_Z c) = inject_Z c.
Proof.
  unfold Qred, inject_Z.
  pose proof (Z.ggcd_gcd c 1) as Hg.
  pose proof (Z.ggcd_correct_divisors c 1) as Hd.
  destruct (Z.ggcd c 1) as [g [a b]]. cbn [fst snd] in *.
  rewrite Z.gcd_1_r in Hg. subst g. destruct Hd as [Ha Hb].
  assert (Ea : a = c) by lia. assert (Eb : b = 1%Z) by lia.
  rewrite Ea, Eb. reflexivity.
Qed.

(** An integer below [2^53] is a binary64 number. *)
Lemma b64_Z_exact (c : Z) :
  (0 <= c < 2 ^ 53)%Z -> Float.b64 (inject_Z c) = inject_Z c.
Proof.
  intros Hc. destruct (Z.eq_dec c 0) as [-> | Hnz]; [reflexivity |].
  assert (Hpos : 0 < inject_Z c).
  { change 0 with (inject_Z 0). rewrite <- Zlt_Qlt. lia. }
  assert (Hq : ~ inject_Z c == 0).
  { intros H. rewrite H in Hpos. now apply (Qlt_irrefl 0). }
  unfold Float.b64.
  destruct (Qeq_bool (inject_Z c) 0) eqn:Hb;
    [apply Qeq_bool_eq in Hb; contradiction |].
  rewrite (Qabs_of_nonneg (inject_Z c)) by now apply Qlt_le_weak.
  destruct (ilog2_spec (inject_Z c) Hpos) as [Hlo Hhi].
  set (L := Float.ilog2 (inject_Z c)) in *.
  assert (HL0 : (0 <= L)%Z).
  { destruct (Z_lt_le_dec L 0) as [Hneg | Hge]; [| assumption].
    exfalso. pose proof (two_pow_le (L + 1) 0 ltac:(lia)) as H.
    change (2 ^ 0) with 1 in H.
    assert (H1 : 1 <= inject_Z c).
    { change 1 with (inject_Z 1). rewrite <- Zle_Qle. lia. }
    lra. }
  assert (HL : (L <= 52)%Z).
  { destruct (Z_lt_le_dec 52 L) as [Hbig | Hle]; [| assumption].
    exfalso. pose proof (two_pow_le 53 L ltac:(lia)) as H.
    assert (H1 : inject_Z c < 2 ^ 53).
    { rewrite <- (two_pow_Z 53) by lia. rewrite <- Zlt_Qlt. lia. }
    lra. }
  rewrite Z.max_l by lia.
  assert (E : inject_Z c / 2 ^ (L - 52) == inject_Z (c * 2 ^ (52 - L))).
  { rewrite inject_Z_mult, (two_pow_Z (52 - L)) by lia.
    replace (52 - L)%Z with (- (L - 52))%Z by lia.
    rewrite Qpower_opp. reflexivity. }
  rewrite (round_half_even_comp _ _ E), round_half_even_Z.
  assert (E2 : inject_Z (c * 2 ^ (52 - L)) * 2 ^ (L - 52) == inject_Z c).
  { rewrite inject_Z_mult, (two_pow_Z (52 - L)) by lia.
    rewrite <- Qmult_assoc, <- two_pow_add.
    replace (52 - L + (L - 52))%Z with 0%Z by lia.
    change (2 ^ 0) with 1. ring. }
  rewrite (Qred_complete _ _ E2).
  apply Qred_inject_Z.
Qed.

Lemma count_le_length (l : list Z) (d : Z) :
  (count l d <= Z.of_nat (List.length l))%Z.
Proof. unfold count. pose proof (count_occ_bound Z.eq_dec d l). lia. Qed.

(** The division of a count by the total is off by at most [2^-53] of
    the quotient. *)
Lemma observed_error (l : list Z) (d : Z) :
  l <> [] -> (Z.of_nat (List.length l) < 2 ^ 53)%Z ->
  Qabs (observed l d - inject_Z (count l d) / inject_Z (Z.of_nat (List.length l)))
  <= (1 # 2 ^ 53) * (inject_Z (count l d) / inject_Z (Z.of_nat (List.length l))).
Proof.
  intros Hne Hlen.
  set (T := Z.of_nat (List.length l)) in *.
  assert (HT : (1 <= T)%Z).
  { unfold T. destruct l; [contradiction | cbn [List.length]; lia]. }
  pose proof (count_nonneg l d) as Hc0.
  pose proof (count_le_length l d) as HcT. fold T in HcT.
  unfold observed, Float.fdiv. fold T.
  rewrite (b64_Z_exact (count l d)), (b64_Z_exact T) by lia.
  set (c := count l d) in *.
  assert (HTq : 0 < inject_Z T).
  { change 0 with (inject_Z 0). rewrite <- Zlt_Qlt. lia. }
  destruct (Z.eq_dec c 0) as [Hz | Hnz].
  - rewrite Hz.
    assert (E0 : inject_Z 0 / inject_Z T == 0) by (unfold Qdiv; ring).
    rewrite (b64_0 _ E0), E0. vm_compute. discriminate.
  - assert (Hx : 2 ^ (-1022) <= inject_Z c / inject_Z T).
    { apply Qle_shift_div_l; [assumption |].
      assert (H1 : 1 <= inject_Z c).
      { change 1 with (inject_Z 1). rewrite <- Zle_Qle. lia. }
      assert (H2 : inject_Z T <= 2 ^ 53).
      { rewrite <- (two_pow_Z 53) by lia. rewrite <- Zle_Qle. lia. }
      assert (H3 : 2 ^ (-1022) * 2 ^ 53 <= 1).
      { rewrite <- two_pow_add. apply (two_pow_le (-1022 + 53) 0). lia. }
      pose proof (two_pow_pos (-1022)). nra. }
    exact (b64_rel_error _ Hx).
Qed.

(** Below 4 a rounding moves a number by at most [2^-52]. *)
Lemma b64_small_error (x : Q) :
  0 <= x -> x < 4 -> Qabs (Float.b64 x - x) <= 1 # 2 ^ 52.
Proof.
  intros H0 H4. destruct (Qeq_dec x 0) as [Hz | Hnz].
  - rewrite (b64_0 x Hz), Hz. vm_compute. discriminate.
  - assert (Hpos : 0 < x).
    { destruct (Qlt_le_dec 0 x) as [H | H]; [assumption |].
      exfalso. apply Hnz. now apply Qle_antisym. }
    pose proof (b64_abs_error x Hnz) as Herr. cbv zeta in Herr.
    rewrite (Qabs_of_nonneg x H0) in Herr.
    destruct (ilog2_spec x Hpos) as [Hlo _].
    assert (HL : (Float.ilog2 x <= 1)%Z).
    { destruct (Z_lt_le_dec 1 (Float.ilog2 x)) as [Hbig | Hle]; [| assumption].
      exfalso. pose proof (two_pow_le 2 (Float.ilog2 x) ltac:(lia)) as H.
      change (2 ^ 2) with 4 in H. lra. }
    eapply Qle_trans; [exact Herr |].
    change (1 # 2 ^ 52) with (2 ^ (-52)).
    apply two_pow_le. lia.
Qed.

Lemma qsum_nonneg (l : list Q) :
  (forall x, In x l -> 0 <= x) -> 0 <= qsum l.
Proof.
  induction l as [| x l IH]; intros H; cbn [qsum fold_right]; [apply Qle_refl |].
  assert (0 <= x) by (apply H; now left).
  assert (0 <= qsum l) by (apply IH; intros y Hy; apply H; now right).
  unfold qsum in *. lra.
Qed.

(** Adding non-negative floats from left to right, below 4, loses at most
    [2^-52] per addition. *)
Lemma fold_fadd_error (l : list Q) :
  forall acc : Q,
    0 <= acc ->
    (forall x, In x l -> 0 <= x) ->
    acc + qsum l + inject_Z (Z.of_nat (List.length l)) * (1 # 2 ^ 52) < 4 ->
    0 <= fold_left Float.fadd l acc /\
    Qabs (fold_left Float.fadd l acc - (acc + qsum l))
    <= inject_Z (Z.of_nat (List.length l)) * (1 # 2 ^ 52).
Proof.
  induction l as [| x l IH]; intros acc Hacc Hl Hlt.
  - cbn [fold_left qsum fold_right List.length].
    split; [assumption |].
    apply Qabs_Qle_condition. change (inject_Z (Z.of_nat 0)) with 0. split; lra.
  - cbn [fold_left qsum fold_right List.length] in *.
    fold (qsum l) in *.
    rewrite Nat2Z.inj_succ, <- Z.add_1_r, inject_Z_plus in *.
    change (inject_Z 1) with 1 in *.
    set (n := inject_Z (Z.of_nat (List.length l))) in *.
    assert (Hn : 0 <= n).
    { unfold n. change 0 with (inject_Z 0). rewrite <- Zle_Qle. lia. }
    assert (Hx : 0 <= x) by (apply Hl; now left).
    assert (Hq : 0 <= qsum l) by (apply qsum_nonneg; intros y Hy; apply Hl; now right).
    change (1 # 2 ^ 52) with (1 # 4503599627370496) in *.
    assert (Hs : Qabs (Float.fadd acc x - (acc + x)) <= 1 # 4503599627370496).
    { apply (b64_small_error (acc + x)); lra. }
    assert (Hs0 : 0 <= Float.fadd acc x) by (apply b64_nonneg; lra).
    apply Qabs_Qle_condition in Hs.
    destruct (IH (Float.fadd acc x) Hs0 (fun y Hy => Hl y (or_intror Hy))) as [Hr0 Hr].
    { fold n. lra. }
    fold n in Hr. apply Qabs_Qle_condition in Hr.
    split; [assumption |].
    apply Qabs_Qle_condition. split; lra.
Qed.

Lemma observed_nonneg (l : list Z) (d : Z) : l <> [] -> 0 <= observed l d.
Proof.
  intros Hne. unfold observed, Float.fdiv.
  apply b64_nonneg.
  assert (H1 : 0 <= Float.b64 (inject_Z (count l d))).
  { apply b64_nonneg. change 0 with (inject_Z 0). rewrite <- Zle_Qle.
    apply count_nonneg. }
  assert (H2 : 0 <= Float.b64 (inject_Z (Z.of_nat (List.length l)))).
  { apply b64_nonneg. change 0 with (inject_Z 0). rewrite <- Zle_Qle. lia. }
  destruct (Qeq_dec (Float.b64 (inject_Z (Z.of_nat (List.length l)))) 0) as [Hz | Hnz].
  - rewrite Hz. unfold Qdiv. rewrite Qmult_comm. vm_compute. discriminate.
  - apply Qle_shift_div_l; [| lra].
    destruct (Qlt_le_dec 0 (Float.b64 (inject_Z (Z.of_nat (List.length l)))))
      as [H | H]; [assumption |].
    exfalso. apply Hnz. now apply Qle_antisym.
Qed.


End Observed.

Section Frequencies.

Variable math_log10 : Q -> Q.

(** C3: when the column has at least one valid digit, the table of counts
    has an entry for each digit 1 to 9, the number of its occurrences (0
    when it does not occur), the table of observed frequencies has the
    nine quotients, and these nine floats add up to 1: within [2^-53] for
    their exact sum, within [2^-48] when they are added as floats from left
    to right.  The bounds are for fewer than [2^53] valid entries; a sheet
    has at most [2^20] rows. *)
Theorem frequency_table (column : list value) :
  let first_digits := first_digits_of column in
  let total_count := Z.of_nat (List.length first_digits) in
  let digit_counts := digit_counts_of first_digits in
  let actual_freq := actual_freq_of digit_counts total_count in
  first_digits <> [] ->
  total_count < 2 ^ 53 ->
  (forall d, 1 <= d <= 9 ->
     Series.get digit_counts d = Ok (count first_digits d) /\
     (~ In d first_digits -> Series.get digit_counts d = Ok 0) /\
     Series.get actual_freq d = Ok (observed first_digits d)) /\
  (Qabs (qsum (map (observed first_digits) (range 1 10)) - 1) <= 1 # 2 ^ 53)%Q /\
  (Qabs (fsum (map (observed first_digits) (range 1 10)) - 1) <= 1 # 2 ^ 48)%Q.
Proof.
  intros l T dc af Hne Hlen. subst dc af. split.
  - intros d Hd. split; [now apply get_digit_counts | split].
    + intros Hnin. rewrite get_digit_counts by assumption.
      unfold count. now rewrite (proj1 (count_occ_not_In Z.eq_dec l d) Hnin).
    + now apply get_actual_freq.
  - assert (Hex : (Qabs (qsum (map (observed l) (range 1 10)) - 1) <= 1 # 2 ^ 53)%Q);
      [| split; [exact Hex |]].
    2:{ assert (Hlen9 : List.length (range 1 10) = 9%nat) by reflexivity.
        destruct (fold_fadd_error (map (observed l) (range 1 10)) 0%Q) as [_ Hf].
        - apply Qle_refl.
        - intros x Hx. apply in_map_iff in Hx. destruct Hx as (d & <- & _).
          now apply observed_nonneg.
        - rewrite length_map, Hlen9.
          set (S := qsum (map (observed l) (range 1 10))) in *.
          apply Qabs_Qle_condition in Hex.
          change (1 # 2 ^ 53)%Q with (1 # 9007199254740992)%Q in Hex.
          change (1 # 2 ^ 52)%Q with (1 # 4503599627370496)%Q.
          change (inject_Z (Z.of_nat 9)) with 9%Q. lra.
        - rewrite length_map, Hlen9 in Hf. unfold fsum.
          set (F := fold_left Float.fadd (map (observed l) (range 1 10)) 0%Q) in *.
          set (S := qsum (map (observed l) (range 1 10))) in *.
          apply Qabs_Qle_condition in Hex, Hf. apply Qabs_Qle_condition.
          change (1 # 2 ^ 53)%Q with (1 # 9007199254740992)%Q in Hex.
          change (1 # 2 ^ 52)%Q with (1 # 4503599627370496)%Q in Hf.
          change (1 # 2 ^ 48)%Q with (1 # 281474976710656)%Q.
          change (inject_Z (Z.of_nat 9)) with 9%Q in Hf. lra. }
    pose proof (zsum_counts l (first_digits_range column)) as Hsum.
    fold T in Hsum.
    assert (HT : 1 <= T).
    { unfold T. destruct l; [contradiction | cbn [List.length]; lia]. }
    assert (HTq : (0 < inject_Z T)%Q).
    { change 0%Q with (inject_Z 0). rewrite <- Zlt_Qlt. lia. }
    assert (HTn : ~ (inject_Z T == 0)%Q).
    { intros H. rewrite H in HTq. now apply (Qlt_irrefl 0). }
    rewrite range_1_10 in *. cbn [map zsum qsum fold_right] in *.
    assert (Hx : (inject_Z (count l 1) / inject_Z T + (inject_Z (count l 2) / inject_Z T
                + (inject_Z (count l 3) / inject_Z T + (inject_Z (count l 4) / inject_Z T
                + (inject_Z (count l 5) / inject_Z T + (inject_Z (count l 6) / inject_Z T
                + (inject_Z (count l 7) / inject_Z T + (inject_Z (count l 8) / inject_Z T
                + (inject_Z (count l 9) / inject_Z T + 0)))))))) == 1)%Q).
    { transitivity (inject_Z T / inject_Z T)%Q; [| field; assumption].
      rewrite <- Hsum at 10.
      rewrite !inject_Z_plus. change (inject_Z 0) with 0%Q.
      field. assumption. }
    pose proof (observed_error l 1 Hne Hlen) as H1.
    pose proof (observed_error l 2 Hne Hlen) as H2.
    pose proof (observed_error l 3 Hne Hlen) as H3.
    pose proof (observed_error l 4 Hne Hlen) as H4.
    pose proof (observed_error l 5 Hne Hlen) as H5.
    pose proof (observed_error l 6 Hne Hlen) as H6.
    pose proof (observed_error l 7 Hne Hlen) as H7.
    pose proof (observed_error l 8 Hne Hlen) as H8.
    pose proof (observed_error l 9 Hne Hlen) as H9.
    fold T in H1, H2, H3, H4, H5, H6, H7, H8, H9.
    apply Qabs_Qle_condition in H1, H2, H3, H4, H5, H6, H7, H8, H9.
    change (1 # 2 ^ 53)%Q with (1 # 9007199254740992)%Q in *.
    apply Qabs_Qle_condition.
    set (x1 := (inject_Z (count l 1) / inject_Z T)%Q) in *.
    set (x2 := (inject_Z (count l 2) / inject_Z T)%Q) in *.
    set (x3 := (inject_Z (count l 3) / inject_Z T)%Q) in *.
    set (x4 := (inject_Z (count l 4) / inject_Z T)%Q) in *.
    set (x5 := (inject_Z (count l 5) / inject_Z T)%Q) in *.
    set (x6 := (inject_Z (count l 6) / inject_Z T)%Q) in *.
    set (x7 := (inject_Z (count l 7) / inject_Z T)%Q) in *.
    set (x8 := (inject_Z (count l 8) / inject_Z T)%Q) in *.
    set (x9 := (inject_Z (count l 9) / inject_Z T)%Q) in *.
    split; lra.
Qed.

(** C8: after a successful run the report file holds the nine rows of
    the digits 1 to 9, and their counts add up to the total of valid
    entries of the header. *)
Theorem report_counts_sum (w : world) :
  fst (main math_log10 w) = inl tt ->
  exists rep,
    file_at report_path (files (snd (main math_log10 w))) = Some (ReportFile rep) /\
    map row_digit (table rep) = range 1 10 /\
    zsum (map row_count (table rep)) = total_valid_entries rep.
Proof.
  intros Hok.
  destruct (sheet w) as [e | df] eqn:Hs.
  { rewrite (main_load_error math_log10 w e Hs) in Hok. discriminate. }
  destruct (process_column_of df) as [[name fallback] |] eqn:Hsel.
  2:{ rewrite (main_no_column math_log10 w df Hs Hsel) in Hok. discriminate. }
  destruct (process_column_get df name fallback Hsel) as [column Hcol].
  destruct (first_digits_of column) as [| d0 l'] eqn:Hl.
  { rewrite (main_no_data math_log10 w df name fallback column Hs Hsel Hcol Hl)
      in Hok. discriminate. }
  assert (Hne : first_digits_of column <> []) by (rewrite Hl; discriminate).
  destruct (node_eq_dec (output_node w) RegularFile) as [Ho | Ho].
  { rewrite (main_unwritable math_log10 w df name fallback column Hs Hsel Hcol Hne Ho)
      in Hok. discriminate. }
  rewrite (main_done math_log10 w df name fallback column Hs Hsel Hcol Hne Ho).
  cbn [snd files].
  exists (report_of math_log10 name (first_digits_of column)).
  split; [| split].
  - rewrite file_at_put_other by reflexivity. apply file_at_put_same.
  - cbn [report_of table]. rewrite map_map. cbn [row_of row_digit]. apply map_id.
  - cbn [report_of table total_valid_entries]. rewrite map_map.
    cbn [row_of row_count].
    apply zsum_counts, first_digits_range.
Qed.

(** C7: the column [123, 45.6, 0, -0.0089, "bad", null] gives no digit for
    0, "bad" and null, and the digits 1, 4 and 8 for the others; three
    valid entries are announced and reported, with the counts 1 for the
    digits 1, 4 and 8 and 0 for the six others. *)
Theorem scenario_counts (w : world) :
  sheet w = inr scenario ->
  output_node w <> RegularFile ->
  map get_first_digit scenario_column
    = [Some 1; Some 4; None; Some 8; None; None] /\
  first_digits_of scenario_column = [1; 4; 8] /\
  digit_counts_of [1; 4; 8]
    = [(1, 1); (2, 0); (3, 0); (4, 1); (5, 0); (6, 0); (7, 0); (8, 1); (9, 0)] /\
  fst (main math_log10 w) = inl tt /\
  In (Print (TotalValidEntries 3)) (trace (snd (main math_log10 w))) /\
  exists rep,
    file_at report_path (files (snd (main math_log10 w))) = Some (ReportFile rep) /\
    column_analyzed rep = "Amount"%string /\
    total_valid_entries rep = 3 /\
    map (fun r => (row_digit r, row_count r)) (table rep)
      = [(1, 1); (2, 0); (3, 0); (4, 1); (5, 0); (6, 0); (7, 0); (8, 1); (9, 0)].
Proof.
  intros Hs Ho.
  assert (Hd : first_digits_of scenario_column = [1; 4; 8])
    by (vm_compute; reflexivity).
  split; [vm_compute; reflexivity |].
  split; [exact Hd |].
  split; [vm_compute; reflexivity |].
  assert (Hne : first_digits_of scenario_column <> [])
    by (rewrite Hd; discriminate).
  rewrite (main_done math_log10 w scenario "Amount" false scenario_column
             Hs eq_refl eq_refl Hne Ho).
  cbn [fst snd files trace]. rewrite Hd.
  split; [reflexivity |].
  split.
  { rewrite !in_app_iff. right. right. right. left. reflexivity. }
  exists (report_of math_log10 "Amount" [1; 4; 8]).
  split; [| split; [reflexivity | split; [reflexivity |]]].
  - rewrite file_at_put_other by reflexivity. apply file_at_put_same.
  - cbn [report_of table]. rewrite map_map. cbn [row_of row_digit row_count].
    reflexivity.
Qed.

End Frequencies.

Lemma frequency_table_witness :
  (Qabs (qsum (map (observed (first_digits_of scenario_column)) (range 1 10)) - 1)
   <= 1 # 2 ^ 53)%Q /\
  (Qabs (fsum (map (observed (first_digits_of scenario_column)) (range 1 10)) - 1)
   <= 1 # 2 ^ 48)%Q.
Proof.
  refine (proj2 (frequency_table scenario_column _ _)).
  - vm_compute. discriminate.
  - vm_compute. reflexivity.
Defined.

Lemma report_counts_sum_witness :
  exists rep,
    file_at report_path (files (snd (main libm_log10 (fresh (inr scenario)))))
      = Some (ReportFile rep) /\
    map row_digit (table rep) = range 1 10 /\
    zsum (map row_count (table rep)) = total_valid_entries rep.
Proof.
  apply report_counts_sum.
  assert (Hne : first_digits_of scenario_column <> [])
    by (vm_compute; discriminate).
  assert (Ho : output_node (fresh (inr scenario)) <> RegularFile)
    by discriminate.
  rewrite (main_done libm_log10 (fresh (inr scenario)) scenario "Amount" false
             scenario_column eq_refl eq_refl eq_refl Hne Ho).
  reflexivity.
Defined.

Lemma scenario_counts_witness :
  fst (main libm_log10 (fresh (inr scenario))) = inl tt /\
  In (Print (TotalValidEntries 3))
     (trace (snd (main libm_log10 (fresh (inr scenario))))).
Proof.
  assert (Ho : output_node (fresh (inr scenario)) <> RegularFile)
    by discriminate.
  pose proof (scenario_counts libm_log10 (fresh (inr scenario)) eq_refl Ho) as H.
  split; [exact (proj1 (proj2 (proj2 (proj2 H))))
         | exact (proj1 (proj2 (proj2 (proj2 (proj2 H)))))].
Defined.


(** ** Benford's frequencies *)

Section Logarithm.

Local Open Scope R_scope.

Lemma Rabs_bound (a b : R) : Rabs a <= b -> - b <= a <= b.
Proof.
  intros H. pose proof (Rle_abs a) as H1. pose proof (Rle_abs (- a)) as H2.
  rewrite Rabs_Ropp in H2. lra.
Qed.

Lemma ln_le_pred (t : R) : 0 < t -> ln t <= t - 1.
Proof.
  intros Ht. pose proof (exp_ineq1_le (t - 1)) as H.
  replace (1 + (t - 1)) with t in H by ring.
  destruct H as [H | H].
  - left. rewrite <- (ln_exp (t - 1)). now apply ln_increasing.
  - right. rewrite H at 1. apply ln_exp.
Qed.

Lemma ln_10_ge_1 : 1 <= ln 10.
Proof.
  rewrite <- (ln_exp 1). left. apply ln_increasing; [apply exp_pos |].
  pose proof exp_le_3. lra.
Qed.

Lemma ln_step (a b : R) : 1 <= a -> a <= b -> 0 <= ln b - ln a <= b - a.
Proof.
  intros Ha Hab.
  assert (Hq : ln (b / a) = ln b - ln a).
  { unfold Rdiv. rewrite ln_mult, ln_Rinv; try lra.
    apply Rinv_0_lt_compat. lra. }
  assert (H1 : 1 <= b / a).
  { apply Rmult_le_reg_r with a; [lra |]. unfold Rdiv.
    rewrite Rmult_assoc, Rinv_l by lra. lra. }
  split.
  - rewrite <- Hq. destruct H1 as [H1 | H1].
    + left. rewrite <- ln_1. apply ln_increasing; lra.
    + rewrite <- H1, ln_1. lra.
  - rewrite <- Hq. pose proof (ln_le_pred (b / a) ltac:(lra)) as H.
    assert (H2 : b / a - 1 <= b - a).
    { assert (E : b / a - 1 = (b - a) * / a) by (field; lra).
      rewrite E.
      assert (Hi : / a <= 1).
      { rewrite <- Rinv_1. apply Rinv_le_contravar; lra. }
      assert (Hi0 : 0 < / a) by (apply Rinv_0_lt_compat; lra).
      nra. }
    lra.
Qed.

(** Above 1 the decimal logarithm moves less than its argument. *)
Lemma log10_near (a b delta : R) :
  1 <= a -> 1 <= b -> Rabs (a - b) <= delta ->
  Rabs (log10 a - log10 b) <= delta.
Proof.
  intros Ha Hb Hd. unfold log10.
  pose proof ln_10_ge_1 as H10.
  assert (Hi : 0 < / ln 10 <= 1).
  { split; [apply Rinv_0_lt_compat; lra |].
    rewrite <- Rinv_1. apply Rinv_le_contravar; lra. }
  assert (E : ln a / ln 10 - ln b / ln 10 = (ln a - ln b) * / ln 10)
    by (unfold Rdiv; ring).
  rewrite E.
  apply Rabs_le. apply Rabs_bound in Hd.
  destruct (Rle_lt_dec a b) as [Hab | Hba].
  - pose proof (ln_step a b Ha Hab). nra.
  - pose proof (ln_step b a Hb ltac:(lra)). nra.
Qed.

Lemma log10_succ (n : R) : 0 < n -> log10 (1 + 1 / n) = (ln (n + 1) - ln n) / ln 10.
Proof.
  intros Hn. unfold log10. f_equal.
  replace (1 + 1 / n) with ((n + 1) * / n) by (field; lra).
  rewrite ln_mult, ln_Rinv; try lra.
  apply Rinv_0_lt_compat. lra.
Qed.

(** Benford's nine frequencies add up to 1. *)
Lemma benford_sum :
  log10 (1 + 1 / 1) + log10 (1 + 1 / 2) + log10 (1 + 1 / 3)
  + log10 (1 + 1 / 4) + log10 (1 + 1 / 5) + log10 (1 + 1 / 6)
  + log10 (1 + 1 / 7) + log10 (1 + 1 / 8) + log10 (1 + 1 / 9) = 1.
Proof.
  rewrite !log10_succ by lra.
  replace (1 + 1) with 2 by ring. replace (2 + 1) with 3 by ring.
  replace (3 + 1) with 4 by ring. replace (4 + 1) with 5 by ring.
  replace (5 + 1) with 6 by ring. replace (6 + 1) with 7 by ring.
  replace (7 + 1) with 8 by ring. replace (8 + 1) with 9 by ring.
  replace (9 + 1) with 10 by ring.
  rewrite ln_1. pose proof ln_10_ge_1. field. lra.
Qed.

Lemma log10_lower (y : R) : 10 / 9 <= y -> / 90 <= log10 y.
Proof.
  intros Hy. unfold log10.
  assert (H1 : / 10 <= ln (10 / 9)).
  { pose proof (ln_le_pred (/ (10 / 9)) ltac:(apply Rinv_0_lt_compat; lra)) as H.
    rewrite ln_Rinv in H by lra.
    replace (/ (10 / 9)) with (9 / 10) in H by (field; lra). lra. }
  pose proof (ln_step (10 / 9) y ltac:(lra) Hy) as [H2 _].
  pose proof (ln_le_pred 10 ltac:(lra)) as H3.
  pose proof ln_10_ge_1 as H4.
  assert (Hi : / 9 <= / ln 10) by (apply Rinv_le_contravar; lra).
  assert (Hi0 : 0 < / ln 10) by (apply Rinv_0_lt_compat; lra).
  unfold Rdiv. nra.
Qed.

Lemma Q2R_qsum (l : list Q) : Q2R (qsum l) = rsum (map Q2R l).
Proof.
  induction l as [| x l IH]; cbn [qsum rsum map fold_right].
  - unfold Q2R. cbn. lra.
  - rewrite Q2R_plus. fold (qsum l). now rewrite IH.
Qed.

(** The sample library is accurate to [1e-12]. *)
Lemma libm_log10_accurate (x : Q) :
  Rabs (Q2R (libm_log10 x) - log10 (Q2R x)) <= / 10 ^ 12.
Proof.
  unfold libm_log10. set (y := log10 (Q2R x)).
  destruct (archimed (y * 10 ^ 12)) as [H1 H2].
  assert (E : Q2R (up (y * 10 ^ 12) # 10 ^ 12) = IZR (up (y * 10 ^ 12)) * / 10 ^ 12).
  { unfold Q2R. cbn [Qnum Qden]. rewrite (pow_IZR 10 12). reflexivity. }
  rewrite E.
  assert (Hp : 0 < / 10 ^ 12).
  { apply Rinv_0_lt_compat. apply pow_lt. lra. }
  assert (E3 : IZR (up (y * 10 ^ 12)) * / 10 ^ 12 - y
               = (IZR (up (y * 10 ^ 12)) - y * 10 ^ 12) * / 10 ^ 12).
  { field. }
  rewrite E3.
  assert (Ht : 0 < IZR (up (y * 10 ^ 12)) - y * 10 ^ 12 <= 1) by lra.
  clear H1 H2 E E3.
  set (t := IZR (up (y * 10 ^ 12)) - y * 10 ^ 12) in *.
  set (q := / 10 ^ 12) in *.
  apply Rabs_le. split; nra.
Qed.

End Logarithm.

(** For each digit the float [1 + 1/d] lies between 1 and 2 and within
    [2^-51] of the rational [1 + 1/d]. *)
Lemma benford_arg_spec (d : Z) :
  1 <= d <= 9 ->
  (1 <= benford_arg d)%Q /\ (benford_arg d <= 2)%Q /\
  (1 <= Q2R (benford_arg d))%R /\
  (Rabs (Q2R (benford_arg d) - (1 + 1 / IZR d)) <= / 2251799813685248)%R.
Proof.
  intros Hd.
  assert (Hc : d = 1 \/ d = 2 \/ d = 3 \/ d = 4 \/ d = 5 \/ d = 6 \/ d = 7
               \/ d = 8 \/ d = 9) by lia.
  destruct Hc as [-> | [-> | [-> | [-> | [-> | [-> | [-> | [-> | ->]]]]]]]].
  - benford_arg_case 1.
  - benford_arg_case 2.
  - benford_arg_case 3.
  - benford_arg_case 4.
  - benford_arg_case 5.
  - benford_arg_case 6.
  - benford_arg_case 7.
  - benford_arg_case 8.
  - benford_arg_case 9.
Qed.

Section Benford.

Variable math_log10 : Q -> Q.
Variable eps : R.

(** The accuracy of the C library on [[1, 2]]. *)
Hypothesis math_log10_accurate :
  forall x : Q, (1 <= x)%Q -> (x <= 2)%Q ->
    (Rabs (Q2R (math_log10 x) - log10 (Q2R x)) <= eps)%R.

Hypothesis eps_small : (eps <= / 10 ^ 10)%R.

Lemma expected_near (d : Z) :
  1 <= d <= 9 ->
  (Rabs (Q2R (expected math_log10 d) - log10 (1 + 1 / IZR d))
   <= eps + / 2251799813685248)%R.
Proof.
  intros Hd.
  destruct (benford_arg_spec d Hd) as (H1 & H2 & H1r & Herr).
  fold (benford_arg d) in *. unfold expected. fold (benford_arg d).
  pose proof (math_log10_accurate (benford_arg d) H1 H2) as Hacc.
  assert (Hy : (1 <= 1 + 1 / IZR d)%R).
  { assert (0 < IZR d)%R by (apply IZR_lt; lia).
    assert (0 < / IZR d)%R by now apply Rinv_0_lt_compat.
    unfold Rdiv. lra. }
  pose proof (log10_near _ _ _ H1r Hy Herr) as Hlog.
  apply Rabs_bound in Hacc, Hlog. apply Rabs_le. lra.
Qed.

Lemma expected_nonneg (d : Z) :
  1 <= d <= 9 -> (0 <= expected math_log10 d)%Q.
Proof.
  intros Hd. apply Rle_Qle.
  assert (Q2R 0 = 0)%R as -> by (unfold Q2R; cbn; lra).
  pose proof (expected_near d Hd) as Hn. apply Rabs_bound in Hn.
  assert (Hy : (10 / 9 <= 1 + 1 / IZR d)%R).
  { assert (H0 : (0 < IZR d)%R) by (apply IZR_lt; lia).
    assert (H9 : (IZR d <= 9)%R) by (apply IZR_le; lia).
    assert (Hi : (/ 9 <= / IZR d)%R) by (apply Rinv_le_contravar; lra).
    unfold Rdiv. lra. }
  pose proof (log10_lower _ Hy) as Hl.
  pose proof eps_small as He.
  assert (E10 : (/ 10 ^ 10 = / 10000000000)%R) by (f_equal; lra).
  rewrite E10 in He. lra.
Qed.

(** C4: for each digit the program computes [math.log10] of the float
    [1 + 1/d]; with a C library accurate to [eps <= 1e-10] on [[1, 2]] the
    value is within [eps + 2^-51] of the real [log10 (1 + 1/d)], and the
    nine values add up to 1 within 1e-9. *)
Theorem benford_frequencies :
  (forall d, 1 <= d <= 9 ->
     Series.get (benford_freq math_log10) d
       = Ok (math_log10 (Float.fadd 1 (Float.fdiv 1 (inject_Z d)))) /\
     (Rabs (Q2R (math_log10 (Float.fadd 1 (Float.fdiv 1 (inject_Z d))))
            - log10 (1 + 1 / IZR d))
      <= eps + / 2251799813685248)%R) /\
  (Rabs (rsum (map (fun d => Q2R (expected math_log10 d)) (range 1 10)) - 1)
   <= / 10 ^ 9)%R /\
  (Rabs (Q2R (fsum (map (expected math_log10) (range 1 10))) - 1) <= / 10 ^ 9)%R.
Proof.
  split.
  - intros d Hd. split; [now apply get_benford_freq | now apply expected_near].
  - assert (E9 : (/ 10 ^ 9 = / 1000000000)%R) by (f_equal; lra).
    assert (E10 : (/ 10 ^ 10 = / 10000000000)%R) by (f_equal; lra).
    pose proof eps_small as He. rewrite E10 in He.
    assert (Hex : (Rabs (rsum (map (fun d => Q2R (expected math_log10 d)) (range 1 10))
                         - 1)
                   <= 9 * eps + 9 * / 2251799813685248)%R);
      [| split; [rewrite E9; apply Rabs_bound in Hex; apply Rabs_le; lra |]].
    2:{ assert (Hmap : map (fun d => Q2R (expected math_log10 d)) (range 1 10)
                       = map Q2R (map (expected math_log10) (range 1 10)))
          by now rewrite map_map.
        rewrite Hmap, <- Q2R_qsum in Hex.
        assert (Hvs : forall x, In x (map (expected math_log10) (range 1 10)) ->
                        (0 <= x)%Q).
        { intros x Hx. apply in_map_iff in Hx.
          destruct Hx as (d & <- & Hd). apply in_range_1_10 in Hd.
          now apply expected_nonneg. }
        assert (Hlen : List.length (map (expected math_log10) (range 1 10)) = 9%nat)
          by (rewrite length_map; reflexivity).
        remember (map (expected math_log10) (range 1 10)) as vs eqn:Evs.
        clear Evs Hmap.
        apply Rabs_bound in Hex.
        assert (Ez : (Q2R 0 = 0)%R) by (unfold Q2R; cbn; lra).
        assert (En : (Q2R (inject_Z (Z.of_nat 9)) = 9)%R) by (unfold Q2R; cbn; lra).
        assert (Eu : (Q2R (1 # 2 ^ 52) = / 4503599627370496)%R)
          by (unfold Q2R; cbn; lra).
        assert (E4 : (Q2R 4 = 4)%R) by (unfold Q2R; cbn; lra).
        assert (Hlt : (0 + qsum vs
                       + inject_Z (Z.of_nat (List.length vs)) * (1 # 2 ^ 52) < 4)%Q).
        { apply Rlt_Qlt. rewrite !Q2R_plus, Q2R_mult, Hlen, Ez, En, Eu, E4. lra. }
        destruct (fold_fadd_error vs 0%Q (Qle_refl 0) Hvs Hlt) as [_ Hf].
        unfold fsum.
        apply Qabs_Qle_condition in Hf. destruct Hf as [Hf1 Hf2].
        apply Qle_Rle in Hf1, Hf2.
        rewrite Q2R_minus, Q2R_plus in Hf1, Hf2.
        rewrite Q2R_opp in Hf1. rewrite Q2R_mult, Hlen, Ez, En, Eu in Hf1, Hf2.
        rewrite E9. apply Rabs_le. lra. }
    rewrite range_1_10. cbn [map rsum fold_right].
    pose proof (expected_near 1 ltac:(lia)) as H1.
    pose proof (expected_near 2 ltac:(lia)) as H2.
    pose proof (expected_near 3 ltac:(lia)) as H3.
    pose proof (expected_near 4 ltac:(lia)) as H4.
    pose proof (expected_near 5 ltac:(lia)) as H5.
    pose proof (expected_near 6 ltac:(lia)) as H6.
    pose proof (expected_near 7 ltac:(lia)) as H7.
    pose proof (expected_near 8 ltac:(lia)) as H8.
    pose proof (expected_near 9 ltac:(lia)) as H9.
    apply Rabs_bound in H1, H2, H3, H4, H5, H6, H7, H8, H9.
    pose proof benford_sum as Hsum.
    apply Rabs_le. split; lra.
Qed.

End Benford.

Lemma benford_frequencies_witness :
  (Rabs (rsum (map (fun d => Q2R (expected libm_log10 d)) (range 1 10)) - 1)
   <= / 10 ^ 9)%R /\
  (Rabs (Q2R (fsum (map (expected libm_log10) (range 1 10))) - 1) <= / 10 ^ 9)%R.
Proof.
  refine (proj2 (benford_frequencies libm_log10 (/ 10 ^ 12)%R _ _)).
  - intros x _ _. apply libm_log10_accurate.
  - apply Rinv_le_contravar; [apply pow_lt; lra |].
    apply Rle_pow; [lra | lia].
Defined.

(** * Further properties of [get_first_digit] *)

Lemma Qabs_opp_eq (q : Q) : Qabs (- q) = Qabs q.
Proof.
  destruct q as [a b]. unfold Qabs, Qopp. cbn [Qnum Qden].
  now rewrite Z.abs_opp.
Qed.

(** The sign of a number plays no part: a float and its opposite, an int
    and its opposite, the two infinities have the same result. *)
Theorem get_first_digit_sign :
  (forall q, get_first_digit (VFloat (Ffin (- q))) = get_first_digit (VFloat (Ffin q))) /\
  (forall z, get_first_digit (VInt (- z)) = get_first_digit (VInt z)) /\
  (forall neg, get_first_digit (VFloat (Finf neg))
               = get_first_digit (VFloat (Finf (negb neg)))).
Proof.
  split; [| split].
  - intros q. unfold get_first_digit, get_first_digit_body.
    cbn [pd_isna py_abs Exc.bind]. now rewrite Qabs_opp_eq.
  - intros z. unfold get_first_digit, get_first_digit_body.
    cbn [pd_isna py_abs Exc.bind]. now rewrite Z.abs_opp.
  - intros []; reflexivity.
Qed.

(** A finite float has no digit exactly when its magnitude is at most
    5e-16, that is when, in units of 1e-15, it is at most one half: zero
    included. *)
Theorem get_first_digit_float_none (q : Q) :
  get_first_digit (VFloat (Ffin q)) = None <->
  (Qabs q * inject_Z (10 ^ 15) <= 1 # 2)%Q.
Proof.
  destruct (get_first_digit_float q) as [H0 Hpos].
  pose proof (scaled_nonneg q) as Hs.
  assert (Hx : (0 <= Qabs q * inject_Z (10 ^ 15))%Q).
  { apply Qmult_le_0_compat; [apply Qabs_nonneg | discriminate]. }
  pose proof (round_half_even_pos _ Hx) as Hr. fold (scaled q) in Hr.
  split.
  - intros Hnone.
    destruct (Qlt_le_dec (1 # 2) (Qabs q * inject_Z (10 ^ 15))) as [Hlt | Hle];
      [| assumption].
    exfalso. destruct (Hpos (proj2 Hr Hlt)) as (d & _ & E). congruence.
  - intros Hle. apply H0.
    destruct (Z.eq_dec (scaled q) 0) as [Hz | Hnz]; [assumption |].
    exfalso. assert (Hp : 0 < scaled q) by lia.
    apply Hr in Hp. apply (Qlt_irrefl (1 # 2)).
    eapply Qlt_le_trans; eassumption.
Qed.

Lemma float_digit_iff (q : Q) (d : Z) :
  get_first_digit (VFloat (Ffin q)) = Some d <->
  leading_digit (Float.round_half_even (Qabs q * inject_Z (10 ^ 15))) d.
Proof.
  fold (scaled q).
  destruct (get_first_digit_float q) as [H0 Hpos].
  pose proof (scaled_nonneg q) as Hs.
  split.
  - intros E. destruct (Z.eq_dec (scaled q) 0) as [Hz | Hnz].
    + rewrite (H0 Hz) in E. discriminate.
    + destruct Hpos as (d' & Hlead & E'); [lia |].
      rewrite E in E'. injection E' as ->. assumption.
  - intros Hlead.
    assert (Hp : 0 < scaled q).
    { destruct Hlead as (Hd & j & Hj & Hlo & _).
      assert (0 < 10 ^ j) by (apply Z.pow_pos_nonneg; lia). nia. }
    destruct (Hpos Hp) as (d' & Hlead' & E).
    now rewrite E, (leading_digit_unique _ _ _ Hlead' Hlead).
Qed.

(** The result on a finite float is [d] exactly when [d] is the most
    significant digit of the magnitude rounded to 15 decimals (ties to
    even), counted in units of 1e-15. *)
Theorem get_first_digit_float_digit (q : Q) (d : Z) :
  get_first_digit (VFloat (Ffin q)) = Some d <->
  leading_digit (Float.round_half_even (Qabs q * inject_Z (10 ^ 15))) d.
Proof.
  split; intros H.
  - now apply (proj1 (float_digit_iff q d)).
  - now apply (proj2 (float_digit_iff q d)).
Qed.

(** Appending fifteen zeros to a number keeps its most significant
    digit. *)
Lemma leading_digit_shift (n d : Z) :
  leading_digit (n * 10 ^ 15) d <-> leading_digit n d.
Proof.
  assert (Hup : forall m e, leading_digit m e -> leading_digit (m * 10 ^ 15) e).
  { intros m e (He & j & Hj & Hlo & Hhi). split; [assumption |].
    exists (j + 15). split; [lia |].
    rewrite Z.pow_add_r by lia.
    assert (0 < 10 ^ 15) by reflexivity. nia. }
  split; [| apply Hup].
  intros Hlead.
  assert (Hn : 0 < n).
  { destruct Hlead as (Hd & j & Hj & Hlo & _).
    assert (0 < 10 ^ j) by (apply Z.pow_pos_nonneg; lia).
    assert (0 < 10 ^ 15) by reflexivity. nia. }
  destruct (decimal_spec n ltac:(lia)) as (_ & _ & Hex).
  destruct (Hex Hn) as (d0 & Hd0 & _).
  now rewrite (leading_digit_unique _ _ _ Hlead (Hup _ _ Hd0)).
Qed.

Lemma scaled_Z (q : Q) (z : Z) :
  (q == inject_Z z)%Q -> scaled q = Z.abs z * 10 ^ 15.
Proof.
  intros Hq. unfold scaled.
  rewrite <- (round_half_even_Z (Z.abs z * 10 ^ 15)).
  apply round_half_even_comp.
  rewrite inject_Z_mult, Hq. apply Qmult_comp; [| reflexivity].
  unfold Qabs, inject_Z. cbn [Qnum Qden]. reflexivity.
Qed.

(** A float whose value is an integer [z] (100.0, -3.0, 1e22) has for
    result the most significant decimal digit of [|z|]. *)
Theorem get_first_digit_integral_float (q : Q) (z d : Z) :
  (q == inject_Z z)%Q ->
  (get_first_digit (VFloat (Ffin q)) = Some d <-> leading_digit (Z.abs z) d).
Proof.
  intros Hq.
  rewrite float_digit_iff. fold (scaled q).
  rewrite (scaled_Z q z Hq). apply leading_digit_shift.
Qed.

Lemma get_first_digit_integral_float_witness :
  get_first_digit (VFloat (Ffin 100)) = Some 1 <-> leading_digit (Z.abs 100) 1.
Proof.
  apply (get_first_digit_integral_float 100 100 1). reflexivity.
Defined.

Lemma float_of_int_exact (z : Z) :
  0 <= z < 2 ^ 53 -> Float.float_of_int z = Ok (inject_Z z).
Proof.
  intros Hz. unfold Float.float_of_int.
  rewrite (b64_Z_exact z Hz).
  assert (Hlt : (Qabs (inject_Z z) < 2 ^ 1024)%Q).
  { rewrite (Qabs_of_nonneg (inject_Z z)).
    - eapply Qlt_le_trans; [| apply (two_pow_le 53 1024); lia].
      rewrite <- (two_pow_Z 53) by lia. rewrite <- Zlt_Qlt. lia.
    - change 0%Q with (inject_Z 0). rewrite <- Zle_Qle. lia. }
  destruct (Qle_bool (2 ^ 1024) (Qabs (inject_Z z))) eqn:Hb; [| reflexivity].
  apply Qle_bool_iff in Hb. exfalso.
  apply (Qlt_irrefl (2 ^ 1024)). eapply Qle_lt_trans; eassumption.
Qed.

Lemma int_digit_iff (z d : Z) :
  Z.abs z < 2 ^ 53 ->
  (get_first_digit (VInt z) = Some d <-> leading_digit (Z.abs z) d).
Proof.
  intros Hz. destruct (Z.eq_dec z 0) as [-> | Hnz].
  - split; [discriminate |].
    intros (Hd & j & Hj & Hlo & _). exfalso.
    assert (0 < 10 ^ j) by (apply Z.pow_pos_nonneg; lia).
    change (Z.abs 0) with 0 in Hlo. nia.
  - unfold get_first_digit.
    rewrite (get_first_digit_body_int z Hnz),
      (float_of_int_exact (Z.abs z)) by lia.
    cbn [Exc.bind].
    assert (Hpos : (0 <= inject_Z (Z.abs z))%Q).
    { change 0%Q with (inject_Z 0). rewrite <- Zle_Qle. lia. }
    destruct (first_char_digit_render _ Hpos) as [_ Hren].
    assert (Hs : scaled (inject_Z (Z.abs z)) = Z.abs z * 10 ^ 15).
    { rewrite (scaled_Z _ (Z.abs z)) by reflexivity. now rewrite Z.abs_idemp. }
    rewrite Hs in Hren.
    destruct Hren as (d' & Hlead & ->).
    { assert (0 < 10 ^ 15) by reflexivity. nia. }
    apply (proj1 (leading_digit_shift _ _)) in Hlead. cbn [try_except].
    split.
    + intros [= <-]. assumption.
    + intros Hl. now rewrite (leading_digit_unique _ _ _ Hlead Hl).
Qed.

(** An int below [2^53] in magnitude is converted to a float without
    loss, and its result is the most significant decimal digit of its
    magnitude (none for 0). *)
Theorem get_first_digit_int_digit (z d : Z) :
  Z.abs z < 2 ^ 53 ->
  (get_first_digit (VInt z) = Some d <-> leading_digit (Z.abs z) d).
Proof.
  intros Hz. split; intros H.
  - now apply (proj1 (int_digit_iff z d Hz)).
  - now apply (proj2 (int_digit_iff z d Hz)).
Qed.

Lemma get_first_digit_int_digit_witness :
  get_first_digit (VInt (-45)) = Some 4 <-> leading_digit (Z.abs (-45)) 4.
Proof.
  apply (get_first_digit_int_digit (-45) 4). reflexivity.
Defined.

(** Every int up to the largest binary64 number converts to a float. *)
Lemma float_of_int_converts (z : Z) :
  0 < z <= 2 ^ 1024 - 2 ^ 971 -> exists q, Float.float_of_int z = Ok q.
Proof.
  intros [Hz Hmax]. unfold Float.float_of_int.
  set (x := inject_Z z).
  assert (H1 : (1 <= x)%Q).
  { unfold x. change 1%Q with (inject_Z 1). rewrite <- Zle_Qle. lia. }
  assert (Hn : (2 ^ (-1022) <= x)%Q).
  { eapply Qle_trans; [apply (two_pow_le (-1022) 0); lia | exact H1]. }
  pose proof (b64_rel_error x Hn) as Herr.
  pose proof (b64_nonneg x ltac:(lra)) as Hpos.
  apply Qabs_Qle_condition in Herr. destruct Herr as [_ Hhi].
  assert (Hx : (x <= 2 ^ 1024 - 2 ^ 1024 * 2 ^ (-53))%Q).
  { rewrite <- two_pow_add. change (1024 + -53) with 971.
    rewrite <- (two_pow_Z 1024), <- (two_pow_Z 971) by lia.
    unfold x, Qminus. rewrite <- inject_Z_opp, <- inject_Z_plus, <- Zle_Qle. lia. }
  pose proof (two_pow_pos 1024) as HM.
  assert (E : (2 ^ (-53) == 1 # 9007199254740992)%Q) by reflexivity.
  rewrite E in Hhi, Hx.
  rewrite (Qabs_of_nonneg _ Hpos).
  set (M := (2 ^ 1024)%Q) in *.
  set (b := Float.b64 x) in *.
  destruct (Qle_bool M b) eqn:Hb; [| now exists b].
  apply Qle_bool_iff in Hb. exfalso. lra.
Qed.

(** An int has no digit exactly when it is 0 or too large for a float;
    every non-zero int up to the largest binary64 number,
    [2^1024 - 2^971], has one. *)
Theorem get_first_digit_int_none (z : Z) :
  (get_first_digit (VInt z) = None <->
   z = 0 \/ Float.float_of_int (Z.abs z) = Raise OverflowError) /\
  (z <> 0 -> Z.abs z <= 2 ^ 1024 - 2 ^ 971 -> get_first_digit (VInt z) <> None).
Proof.
  assert (Hok : forall q, z <> 0 -> Float.float_of_int (Z.abs z) = Ok q ->
                  get_first_digit (VInt z) <> None).
  { intros q Hnz Hq.
    unfold get_first_digit. rewrite (get_first_digit_body_int z Hnz), Hq.
    cbn [Exc.bind].
    pose proof (float_of_int_nonneg (Z.abs z) q ltac:(lia) Hq) as Hpos.
    pose proof (scaled_float_of_int (Z.abs z) q ltac:(lia) Hq) as Hs.
    destruct (first_char_digit_render q Hpos) as [_ H].
    destruct (H Hs) as (d & _ & ->). discriminate. }
  split.
  - split.
    + intros Hnone. destruct (Z.eq_dec z 0) as [Hz | Hnz]; [now left | right].
      destruct (Float.float_of_int (Z.abs z)) as [q | e] eqn:Hq.
      * exfalso. exact (Hok q Hnz eq_refl Hnone).
      * unfold Float.float_of_int in Hq.
        destruct (Qle_bool _ _); [| discriminate].
        injection Hq as <-. reflexivity.
    + intros [-> | Hov]; [reflexivity |].
      destruct (Z.eq_dec z 0) as [-> | Hnz]; [reflexivity |].
      unfold get_first_digit. now rewrite (get_first_digit_body_int z Hnz), Hov.
  - intros Hnz Hmax.
    destruct (float_of_int_converts (Z.abs z) ltac:(lia)) as [q Hq].
    exact (Hok q Hnz Hq).
Qed.

(** ** Scale invariance *)








(** * Further properties of [main] *)

Lemma no_writes_app (es es' : list event) :
  no_writes es -> no_writes es' -> no_writes (es ++ es').
Proof.
  intros H H' p a Hin. apply in_app_iff in Hin.
  destruct Hin as [Hin | Hin]; [exact (H p a Hin) | exact (H' p a Hin)].
Qed.

Lemma no_writes_prologue (w : world) : no_writes (prologue w).
Proof.
  intros p a. unfold prologue.
  destruct (output_node w); cbn [In app]; intuition discriminate.
Qed.

Lemma no_writes_selection (fallback : bool) (name : string) :
  no_writes (selection_events fallback name).
Proof.
  intros p a. unfold selection_events.
  destruct fallback; cbn [In app]; intuition discriminate.
Qed.

Lemma no_writes_prints (ls : list line) : no_writes (map Print ls).
Proof.
  intros p a Hin. apply in_map_iff in Hin.
  destruct Hin as (l & E & _). discriminate.
Qed.

Lemma put_file_same (path : string) (a : artifact) (fs : list (string * artifact)) :
  file_at path fs = Some a -> IO.put_file path a fs = fs.
Proof.
  induction fs as [| [p b] fs IH]; cbn [file_at IO.put_file]; [discriminate |].
  destruct (String.eqb p path) eqn:E.
  - intros [= ->]. reflexivity.
  - intros H. now rewrite IH.
Qed.

Section MoreOnMain.

Variable math_log10 : Q -> Q.

(** What a completed run started from. *)
Lemma main_done_inv (w : world) :
  fst (main math_log10 w) = inl tt ->
  exists df name fallback column,
    sheet w = inr df /\
    process_column_of df = Some (name, fallback) /\
    df_get df name = Ok column /\
    first_digits_of column <> [] /\
    output_node w <> RegularFile.
Proof.
  intros Hok.
  destruct (sheet w) as [e | df] eqn:Hs.
  { rewrite (main_load_error math_log10 w e Hs) in Hok. discriminate. }
  destruct (process_column_of df) as [[name fallback] |] eqn:Hsel.
  2:{ rewrite (main_no_column math_log10 w df Hs Hsel) in Hok. discriminate. }
  destruct (process_column_get df name fallback Hsel) as [column Hcol].
  destruct (first_digits_of column) as [| d0 l'] eqn:Hl.
  { rewrite (main_no_data math_log10 w df name fallback column Hs Hsel Hcol Hl)
      in Hok. discriminate. }
  assert (Hne : first_digits_of column <> []) by (rewrite Hl; discriminate).
  destruct (node_eq_dec (output_node w) RegularFile) as [Ho | Ho].
  { rewrite (main_unwritable math_log10 w df name fallback column Hs Hsel Hcol Hne Ho)
      in Hok. discriminate. }
  exists df, name, fallback, column. rewrite Hl in *. repeat split; assumption.
Qed.

(** A run that stops at one of the three early returns (the sheet does
    not load, neither column is there, no cell of the column has a digit),
    or where [open] raises because [output] is a regular file, does not
    complete, leaves every file as it was and records no write. *)
Theorem main_abort_writes_nothing (w : world) :
  (exists e, sheet w = inl e) \/
  (exists df, sheet w = inr df /\
     (process_column_of df = None \/
      exists name fallback column,
        process_column_of df = Some (name, fallback) /\
        df_get df name = Ok column /\
        (first_digits_of column = [] \/ output_node w = RegularFile))) ->
  fst (main math_log10 w) <> inl tt /\
  files (snd (main math_log10 w)) = files w /\
  exists es, trace (snd (main math_log10 w)) = trace w ++ es /\ no_writes es.
Proof.
  intros [[e Hs] | (df & Hs & [Hsel | (name & fallback & column & Hsel & Hcol & Hwhy)])].
  - rewrite (main_load_error math_log10 w e Hs). cbn [fst snd emit loaded files trace].
    split; [discriminate |].
    split; [reflexivity |]. rewrite <- app_assoc. eexists. split; [reflexivity |].
    apply no_writes_app; [apply no_writes_prologue |].
    apply (no_writes_prints [ErrorLoading e]).
  - rewrite (main_no_column math_log10 w df Hs Hsel).
    cbn [fst snd emit loaded files trace].
    split; [discriminate |].
    split; [reflexivity |]. rewrite <- app_assoc. eexists. split; [reflexivity |].
    apply no_writes_app; [apply no_writes_prologue |].
    apply (no_writes_prints
             [DataLoaded; NeitherColumn; AvailableColumns (df_columns df)]).
  - destruct (first_digits_of column) as [| d0 l'] eqn:Hl.
    + rewrite (main_no_data math_log10 w df name fallback column Hs Hsel Hcol Hl).
      cbn [fst snd emit loaded files trace].
      split; [discriminate |].
      split; [reflexivity |]. rewrite <- app_assoc. eexists. split; [reflexivity |].
      apply no_writes_app; [apply no_writes_prologue |].
      apply no_writes_app; [apply no_writes_selection |].
      apply (no_writes_prints [NoValidData]).
    + destruct Hwhy as [Hwhy | Ho]; [discriminate |].
      assert (Hne : first_digits_of column <> []) by (rewrite Hl; discriminate).
      rewrite (main_unwritable math_log10 w df name fallback column Hs Hsel Hcol Hne Ho).
      cbn [fst snd emit loaded files trace].
      split; [discriminate |].
      split; [reflexivity |]. rewrite <- app_assoc. eexists. split; [reflexivity |].
      apply no_writes_app; [apply no_writes_prologue |].
      apply no_writes_app; [apply no_writes_selection |].
      apply (no_writes_prints
               [TotalValidEntries (Z.of_nat (List.length (first_digits_of column)))]).
Qed.

(** A run completes exactly when the sheet loads, has one of the two
    columns, the chosen column has a cell with a leading digit, and the
    path [output] is not a regular file. *)
Theorem main_done_iff (w : world) :
  fst (main math_log10 w) = inl tt <->
  exists df name fallback column,
    sheet w = inr df /\
    process_column_of df = Some (name, fallback) /\
    df_get df name = Ok column /\
    (exists v, In v column /\ get_first_digit v <> None) /\
    output_node w <> RegularFile.
Proof.
  split.
  - intros Hok.
    destruct (main_done_inv w Hok) as (df & name & fb & column & Hs & Hsel & Hcol & Hne & Ho).
    exists df, name, fb, column. repeat split; try assumption.
    destruct (first_digits_of column) as [| d l'] eqn:Hl; [contradiction |].
    assert (Hin : In d (first_digits_of column)) by (rewrite Hl; now left).
    unfold first_digits_of in Hin. apply in_flat_map in Hin.
    destruct Hin as (v & Hv & Hd). exists v. split; [assumption |].
    destruct (get_first_digit v); [discriminate | contradiction].
  - intros (df & name & fb & column & Hs & Hsel & Hcol & (v & Hv & Hd) & Ho).
    assert (Hne : first_digits_of column <> []).
    { intros Hnil.
      destruct (get_first_digit v) as [d |] eqn:E; [| contradiction].
      assert (Hin : In d (first_digits_of column)).
      { unfold first_digits_of. apply in_flat_map. exists v.
        split; [assumption |]. rewrite E. now left. }
      rewrite Hnil in Hin. contradiction. }
    now rewrite (main_done math_log10 w df name fb column Hs Hsel Hcol Hne Ho).
Qed.

(** A completed run leaves [output] a directory, the report and the chart
    at their two paths, and every other file as it was. *)
Theorem main_done_files (w : world) :
  fst (main math_log10 w) = inl tt ->
  let w' := snd (main math_log10 w) in
  output_node w' = Directory /\
  (exists rep, file_at report_path (files w') = Some (ReportFile rep)) /\
  (exists c, file_at chart_path (files w') = Some (ChartFile c)) /\
  (forall p, p <> report_path -> p <> chart_path ->
             file_at p (files w') = file_at p (files w)).
Proof.
  intros Hok w'. subst w'.
  destruct (main_done_inv w Hok) as (df & name & fb & column & Hs & Hsel & Hcol & Hne & Ho).
  rewrite (main_done math_log10 w df name fb column Hs Hsel Hcol Hne Ho).
  cbn [snd files output_node].
  split; [reflexivity |]. split; [| split].
  - eexists. rewrite file_at_put_other by reflexivity. apply file_at_put_same.
  - eexists. apply file_at_put_same.
  - intros p Hr Hc.
    rewrite !file_at_put_other; [reflexivity | |].
    + apply String.eqb_neq. congruence.
    + apply String.eqb_neq. congruence.
Qed.

(** Running again after a completed run completes again, changes no
    file, and neither creates nor announces the directory. *)
Theorem main_rerun (w : world) :
  fst (main math_log10 w) = inl tt ->
  let w1 := snd (main math_log10 w) in
  let w2 := snd (main math_log10 w1) in
  fst (main math_log10 w1) = inl tt /\
  files w2 = files w1 /\
  output_node w2 = output_node w1 /\
  exists es, trace w2 = trace w1 ++ Print Starting :: ReadExcel file_path :: es /\
             forall p, ~ In (Makedirs p) es /\ ~ In (Print (CreatedDirectory p)) es.
Proof.
  intros Hok w1 w2. subst w2 w1.
  destruct (main_done_inv w Hok) as (df & name & fb & column & Hs & Hsel & Hcol & Hne & Ho).
  rewrite (main_done math_log10 w df name fb column Hs Hsel Hcol Hne Ho).
  cbn [snd].
  set (w1 := {| output_node := Directory;
                files := IO.put_file chart_path
                           (ChartFile (chart_of math_log10 (first_digits_of column)))
                           (IO.put_file report_path
                              (ReportFile (report_of math_log10 name
                                             (first_digits_of column))) (files w));
                sheet := sheet w;
                trace := trace w ++ prologue w ++ selection_events fb name
                           ++ analysis_events math_log10 name (first_digits_of column) |}).
  assert (Hs1 : sheet w1 = inr df) by exact Hs.
  assert (Ho1 : output_node w1 <> RegularFile) by discriminate.
  rewrite (main_done math_log10 w1 df name fb column Hs1 Hsel Hcol Hne Ho1).
  cbn [fst snd files output_node trace].
  split; [reflexivity |]. split; [| split; [reflexivity |]].
  - unfold w1. cbn [files].
    rewrite (put_file_same report_path).
    + now rewrite (put_file_same chart_path) by apply file_at_put_same.
    + rewrite file_at_put_other by reflexivity. apply file_at_put_same.
  - unfold prologue. cbn [output_node w1 app].
    eexists. split; [reflexivity |].
    intros p. unfold selection_events, analysis_events.
    destruct fb; cbn [In app]; intuition discriminate.
Qed.

End MoreOnMain.

(** ** The report and the cells of the column *)

Lemma count_app (l l' : list Z) (d : Z) : count (l ++ l') d = count l d + count l' d.
Proof.
  unfold count. rewrite count_occ_app. lia.
Qed.

Lemma count_first_digits (column : list value) (d : Z) :
  count (first_digits_of column) d
  = Z.of_nat (List.length (filter (digit_is d) column)).
Proof.
  unfold first_digits_of.
  induction column as [| v column IH]; [reflexivity |].
  cbn [flat_map filter]. rewrite count_app, IH. unfold digit_is at 2.
  destruct (get_first_digit v) as [d' |].
  - rewrite count_cons. change (count [] d) with 0.
    destruct (d' =? d); cbn [List.length]; lia.
  - change (count [] d) with 0. lia.
Qed.

Lemma length_first_digits (column : list value) :
  List.length (first_digits_of column) = List.length (filter has_digit column).
Proof.
  unfold first_digits_of.
  induction column as [| v column IH]; [reflexivity |].
  cbn [flat_map filter]. rewrite length_app, IH. unfold has_digit at 2.
  destruct (get_first_digit v); reflexivity.
Qed.

Section MoreOnReport.

Variable math_log10 : Q -> Q.

(** In the report of a completed run the column analysed is the chosen
    one, the total is the number of its cells that have a leading digit,
    and the count of each row is the number of its cells whose leading
    digit is the digit of the row. *)
Theorem report_counts_cells (w : world) (df : dataframe) (name : string)
        (fallback : bool) (column : list value) :
  sheet w = inr df ->
  process_column_of df = Some (name, fallback) ->
  df_get df name = Ok column ->
  fst (main math_log10 w) = inl tt ->
  exists rep,
    file_at report_path (files (snd (main math_log10 w))) = Some (ReportFile rep) /\
    column_analyzed rep = name /\
    total_valid_entries rep = Z.of_nat (List.length (filter has_digit column)) /\
    forall r, In r (table rep) ->
      row_count r = Z.of_nat (List.length (filter (digit_is (row_digit r)) column)).
Proof.
  intros Hs Hsel Hcol Hok.
  destruct (main_done_inv math_log10 w Hok)
    as (df' & name' & fb' & column' & Hs' & Hsel' & Hcol' & Hne & Ho).
  rewrite Hs in Hs'. injection Hs' as <-.
  rewrite Hsel in Hsel'. injection Hsel' as <- <-.
  rewrite Hcol in Hcol'. injection Hcol' as <-.
  rewrite (main_done math_log10 w df name fallback column Hs Hsel Hcol Hne Ho).
  cbn [snd files].
  exists (report_of math_log10 name (first_digits_of column)).
  split; [| split; [reflexivity | split]].
  - rewrite file_at_put_other by reflexivity. apply file_at_put_same.
  - cbn [report_of total_valid_entries]. now rewrite length_first_digits.
  - cbn [report_of table]. intros r Hr. apply in_map_iff in Hr.
    destruct Hr as (d & <- & _). cbn [row_of row_count row_digit].
    apply count_first_digits.
Qed.


(** Only the chosen column counts: two sheets with the same choice and
    the same cells in the chosen column give, from worlds that agree
    otherwise, the same outcome, files, path [output] and trace. *)
Theorem other_columns_ignored (w1 w2 : world) (df1 df2 : dataframe)
        (name : string) (fallback : bool) (column : list value) :
  sheet w1 = inr df1 -> sheet w2 = inr df2 ->
  process_column_of df1 = Some (name, fallback) ->
  process_column_of df2 = Some (name, fallback) ->
  df_get df1 name = Ok column -> df_get df2 name = Ok column ->
  output_node w1 = output_node w2 -> files w1 = files w2 -> trace w1 = trace w2 ->
  fst (main math_log10 w1) = fst (main math_log10 w2) /\
  files (snd (main math_log10 w1)) = files (snd (main math_log10 w2)) /\
  output_node (snd (main math_log10 w1)) = output_node (snd (main math_log10 w2)) /\
  trace (snd (main math_log10 w1)) = trace (snd (main math_log10 w2)).
Proof.
  intros Hs1 Hs2 Hsel1 Hsel2 Hc1 Hc2 Ho Hf Ht.
  assert (Hp : prologue w1 = prologue w2) by (unfold prologue; now rewrite Ho).
  destruct (first_digits_of column) as [| d0 l'] eqn:Hl.
  - rewrite (main_no_data math_log10 w1 df1 name fallback column Hs1 Hsel1 Hc1 Hl),
      (main_no_data math_log10 w2 df2 name fallback column Hs2 Hsel2 Hc2 Hl).
    cbn [fst snd emit loaded files output_node trace].
    now rewrite Hf, Ho, Ht, Hp.
  - assert (Hne : first_digits_of column <> []) by (rewrite Hl; discriminate).
    destruct (node_eq_dec (output_node w1) RegularFile) as [Hr | Hr].
    + rewrite (main_unwritable math_log10 w1 df1 name fallback column
                 Hs1 Hsel1 Hc1 Hne Hr),
        (main_unwritable math_log10 w2 df2 name fallback column
           Hs2 Hsel2 Hc2 Hne ltac:(now rewrite <- Ho)).
      cbn [fst snd emit loaded files output_node trace].
      now rewrite Hf, Ho, Ht, Hp.
    + rewrite (main_done math_log10 w1 df1 name fallback column
                 Hs1 Hsel1 Hc1 Hne Hr),
        (main_done math_log10 w2 df2 name fallback column
           Hs2 Hsel2 Hc2 Hne ltac:(now rewrite <- Ho)).
      cbn [fst snd files output_node trace].
      now rewrite Hf, Ht, Hp.
Qed.

End MoreOnReport.

(** ** The range of the observed frequencies *)

Section ObservedRange.

Local Open Scope Q_scope.

(** Rounding to an integer does not pass an integer above. *)
Lemma round_half_even_le (y : Q) (n : Z) :
  y <= inject_Z n -> (Float.round_half_even y <= n)%Z.
Proof.
  intros Hy.
  pose proof (Qfloor_le y) as Hlo.
  destruct (round_half_even_cases y) as [[E _] | [E H]].
  - rewrite Zle_Qle, E. lra.
  - assert (Hlt : inject_Z (Qfloor y) < inject_Z n) by lra.
    rewrite <- Zlt_Qlt in Hlt.
    assert (E' : inject_Z (Float.round_half_even y) == inject_Z (Qfloor y + 1)).
    { rewrite inject_Z_plus. exact E. }
    rewrite inject_Z_injective in E'. lia.
Qed.

(** A float in [[0, 1]] rounds into [[0, 1]]. *)
Lemma b64_le_one (x : Q) : 0 <= x -> x <= 1 -> Float.b64 x <= 1.
Proof.
  intros H0 H1. destruct (Qeq_dec x 0) as [Hz | Hnz].
  - rewrite (b64_0 x Hz). discriminate.
  - assert (Hpos : 0 < x).
    { destruct (Qlt_le_dec 0 x) as [H | H]; [assumption |].
      exfalso. apply Hnz. now apply Qle_antisym. }
    rewrite (b64_value x Hnz). cbv zeta.
    rewrite (Qabs_of_nonneg x H0).
    destruct (ilog2_spec x Hpos) as [Hlo _].
    assert (HL : (Float.ilog2 x <= 0)%Z).
    { destruct (Z_lt_le_dec 0 (Float.ilog2 x)) as [Hbig | Hle]; [| assumption].
      exfalso. pose proof (two_pow_le 1 (Float.ilog2 x) ltac:(lia)) as H.
      change (2 ^ 1) with 2 in H. lra. }
    set (e := Z.max (Float.ilog2 x - 52) (-1074)).
    assert (He : (e <= -52)%Z) by (unfold e; lia).
    pose proof (two_pow_pos e) as Hpe.
    assert (E1 : 2 ^ e * 2 ^ (- e) == 1).
    { rewrite <- two_pow_add. now replace (e + - e)%Z with 0%Z by lia. }
    assert (Hy : x / 2 ^ e <= inject_Z (2 ^ (- e))).
    { rewrite two_pow_Z by lia. apply Qle_shift_div_r; [assumption |].
      rewrite Qmult_comm, E1. assumption. }
    apply round_half_even_le in Hy. rewrite Zle_Qle, two_pow_Z in Hy by lia.
    set (m := inject_Z (Float.round_half_even (x / 2 ^ e))) in *.
    pose proof (two_pow_pos (- e)). nra.
Qed.

End ObservedRange.

(** In the table of observed frequencies of a column with a valid digit
    (fewer than [2^53] of them), the entry of each digit lies between 0
    and 1, and it is 0 exactly for the digits that do not occur. *)
Theorem actual_freq_range (column : list value) (d : Z) (x : Q) :
  let first_digits := first_digits_of column in
  let total_count := Z.of_nat (List.length first_digits) in
  first_digits <> [] ->
  total_count < 2 ^ 53 ->
  1 <= d <= 9 ->
  Series.get (actual_freq_of (digit_counts_of first_digits) total_count) d = Ok x ->
  (0 <= x)%Q /\ (x <= 1)%Q /\ ((x == 0)%Q <-> ~ In d first_digits).
Proof.
  intros l T Hne Hlen Hd Hget. subst T.
  rewrite (get_actual_freq l d Hd) in Hget. injection Hget as <-.
  set (T := Z.of_nat (List.length l)) in *.
  assert (HT : 1 <= T).
  { unfold T. destruct l; [contradiction | cbn [List.length]; lia]. }
  pose proof (count_nonneg l d) as Hc0.
  pose proof (count_le_length l d) as HcT. fold T in HcT.
  assert (HTq : (0 < inject_Z T)%Q).
  { change 0%Q with (inject_Z 0). rewrite <- Zlt_Qlt. lia. }
  assert (Hcq : (0 <= inject_Z (count l d))%Q).
  { change 0%Q with (inject_Z 0). now rewrite <- Zle_Qle. }
  assert (Hin : ~ In d l <-> count l d = 0).
  { unfold count. rewrite (count_occ_not_In Z.eq_dec). lia. }
  assert (Hq0 : (0 <= inject_Z (count l d) / inject_Z T)%Q).
  { apply Qle_shift_div_l; [assumption | lra]. }
  assert (Hq1 : (inject_Z (count l d) / inject_Z T <= 1)%Q).
  { apply Qle_shift_div_r; [assumption |]. rewrite Qmult_1_l, <- Zle_Qle. lia. }
  assert (Eobs : observed l d = Float.b64 (inject_Z (count l d) / inject_Z T)).
  { unfold observed, Float.fdiv. fold T.
    now rewrite (b64_Z_exact (count l d)), (b64_Z_exact T) by lia. }
  split; [now apply observed_nonneg |].
  split; [rewrite Eobs; now apply b64_le_one |].
  rewrite Hin. split.
  - intros Hz. destruct (Z.eq_dec (count l d) 0) as [E | Hnz]; [assumption |].
    exfalso.
    pose proof (observed_error l d Hne Hlen) as Herr. fold T in Herr.
    apply Qabs_Qle_condition in Herr. destruct Herr as [Hlo _].
    rewrite Hz in Hlo.
    assert (Hpos : (0 < inject_Z (count l d) / inject_Z T)%Q).
    { apply Qlt_shift_div_l; [assumption |]. rewrite Qmult_0_l.
      change 0%Q with (inject_Z 0). rewrite <- Zlt_Qlt. lia. }
    change (1 # 2 ^ 53)%Q with (1 # 9007199254740992)%Q in Hlo. lra.
  - intros E. rewrite Eobs, E.
    now rewrite (b64_0 (inject_Z 0 / inject_Z T)) by (unfold Qdiv; ring).
Qed.

(** ** Instances *)

Lemma main_abort_writes_nothing_witness :
  fst (main libm_log10
         {| output_node := RegularFile; files := []; sheet := inr scenario;
            trace := [] |}) <> inl tt /\
  files (snd (main libm_log10
                {| output_node := RegularFile; files := []; sheet := inr scenario;
                   trace := [] |})) = [].
Proof.
  assert (H : output_node {| output_node := RegularFile; files := [];
                             sheet := inr scenario; trace := [] |} = RegularFile)
    by reflexivity.
  destruct (main_abort_writes_nothing libm_log10
              {| output_node := RegularFile; files := []; sheet := inr scenario;
                 trace := [] |}) as (H1 & H2 & _).
  - right. exists scenario. split; [reflexivity |]. right.
    exists "Amount"%string, false, scenario_column.
    repeat split. now right.
  - split; assumption.
Defined.

Lemma scenario_done : fst (main libm_log10 (fresh (inr scenario))) = inl tt.
Proof.
  assert (Hne : first_digits_of scenario_column <> [])
    by (vm_compute; discriminate).
  assert (Ho : output_node (fresh (inr scenario)) <> RegularFile)
    by discriminate.
  now rewrite (main_done libm_log10 (fresh (inr scenario)) scenario "Amount" false
                 scenario_column eq_refl eq_refl eq_refl Hne Ho).
Qed.

Lemma main_done_files_witness :
  output_node (snd (main libm_log10 (fresh (inr scenario)))) = Directory.
Proof.
  exact (proj1 (main_done_files libm_log10 (fresh (inr scenario)) scenario_done)).
Defined.

Lemma main_rerun_witness :
  fst (main libm_log10 (snd (main libm_log10 (fresh (inr scenario))))) = inl tt.
Proof.
  exact (proj1 (main_rerun libm_log10 (fresh (inr scenario)) scenario_done)).
Defined.

Lemma report_counts_cells_witness :
  exists rep,
    file_at report_path (files (snd (main libm_log10 (fresh (inr scenario)))))
      = Some (ReportFile rep) /\
    column_analyzed rep = "Amount"%string /\
    total_valid_entries rep
      = Z.of_nat (List.length (filter has_digit scenario_column)) /\
    forall r, In r (table rep) ->
      row_count r
      = Z.of_nat (List.length (filter (digit_is (row_digit r)) scenario_column)).
Proof.
  exact (report_counts_cells libm_log10 (fresh (inr scenario)) scenario "Amount"
           false scenario_column eq_refl eq_refl eq_refl scenario_done).
Defined.


Lemma other_columns_ignored_witness :
  fst (main libm_log10 (fresh (inr scenario)))
  = fst (main libm_log10
           (fresh (inr (("Date"%string, map (fun _ => VObject) scenario_column) :: scenario)))).
Proof.
  exact (proj1 (other_columns_ignored libm_log10
                  (fresh (inr scenario))
                  (fresh (inr (("Date"%string, map (fun _ => VObject) scenario_column) :: scenario)))
                  scenario (("Date"%string, map (fun _ => VObject) scenario_column) :: scenario)
                  "Amount" false scenario_column
                  eq_refl eq_refl eq_refl eq_refl eq_refl eq_refl
                  eq_refl eq_refl eq_refl)).
Defined.

Lemma actual_freq_range_witness :
  (0 <= observed (first_digits_of scenario_column) 4)%Q /\
  (observed (first_digits_of scenario_column) 4 <= 1)%Q /\
  ((observed (first_digits_of scenario_column) 4 == 0)%Q <->
   ~ In 4 (first_digits_of scenario_column)).
Proof.
  refine (actual_freq_range scenario_column 4 _ _ _ _ _).
  - vm_compute. discriminate.
  - vm_compute. reflexivity.
  - lia.
  - apply get_actual_freq. lia.
Defined.
